(** * Authentication session lifecycle of ReactNativeStarter

    A shallow embedding of the auth store (store/authSlice.ts), the secure
    storage wrapper (services/storage/SecureStorage.ts), the API client with
    its error interceptor (services/api/ApiClient.ts, interceptors.ts), the
    auth service (services/api/AuthService.ts), the [useAuth] hook
    (hooks/useAuth.ts) and the auth view model (screens/auth/AuthViewModel.ts),
    followed by the properties of the session lifecycle. *)

From Stdlib Require Import ZArith Ascii String Decimal DecimalString DecimalPos DecimalZ.
From stdpp Require Import base option strings gmap fin_maps list.

Local Open Scope Z_scope.
Local Open Scope string_scope.

(** ** Data model (types/models.ts, types/api.ts) *)

(** [User]: the required fields are strings and a flag, the optional ones
    ([username?], [avatar?], ...) are [option string]. *)
Record User := mkUser {
  u_id : string;
  u_email : string;
  u_firstName : string;
  u_lastName : string;
  u_username : option string;
  u_avatar : option string;
  u_bio : option string;
  u_phone : option string;
  u_website : option string;
  u_location : option string;
  u_emailVerified : bool;
  u_createdAt : string;
  u_updatedAt : string
}.

(** [AuthResponse]: [expiresAt] is an epoch in milliseconds, an integer. *)
Record AuthResponse := mkAuthResponse {
  r_user : User;
  r_accessToken : string;
  r_refreshToken : string;
  r_expiresAt : Z
}.

(** [ApiError] without the [errors] table and [retryAttempt], which the
    session code never reads. *)
Record ApiError := mkApiError {
  status : Z;
  message : string;
  code : option string
}.

(** JavaScript truthiness of a [string | null]: [null] and the empty string
    are falsy. *)
Definition truthy (o : option string) : bool :=
  match o with
  | Some s => negb (String.eqb s "")
  | None => false
  end.

(** [a || b] on strings: [a] when it is not empty, else [b]. *)
Definition str_or (a b : string) : string :=
  if String.eqb a "" then b else a.

(** ** Auth store (store/authSlice.ts) *)

Module Store.

Record AuthState := mkAuthState {
  user : option User;
  accessToken : option string;
  refreshToken : option string;
  isAuthenticated : bool;
  isLoading : bool;
  isInitialized : bool;
  error : option string
}.

Definition initialState : AuthState :=
  {| user := None; accessToken := None; refreshToken := None;
     isAuthenticated := false; isLoading := false; isInitialized := false;
     error := None |}.

(** Each action calls zustand's [set] with a partial state, which is merged
    into the current one: the fields it does not name keep their value. *)

Definition setAuth (u : User) (a r : string) (s : AuthState) : AuthState :=
  {| user := Some u; accessToken := Some a; refreshToken := Some r;
     isAuthenticated := true; isLoading := false;
     isInitialized := isInitialized s; error := None |}.

Definition clearAuth (s : AuthState) : AuthState :=
  {| user := None; accessToken := None; refreshToken := None;
     isAuthenticated := false; isLoading := false;
     isInitialized := isInitialized s; error := None |}.

Definition setUser (u : User) (s : AuthState) : AuthState :=
  {| user := Some u; accessToken := accessToken s;
     refreshToken := refreshToken s; isAuthenticated := isAuthenticated s;
     isLoading := isLoading s; isInitialized := isInitialized s;
     error := error s |}.

Definition setTokens (a r : string) (s : AuthState) : AuthState :=
  {| user := user s; accessToken := Some a; refreshToken := Some r;
     isAuthenticated := isAuthenticated s; isLoading := isLoading s;
     isInitialized := isInitialized s; error := error s |}.

Definition setLoading (b : bool) (s : AuthState) : AuthState :=
  {| user := user s; accessToken := accessToken s;
     refreshToken := refreshToken s; isAuthenticated := isAuthenticated s;
     isLoading := b; isInitialized := isInitialized s; error := error s |}.

Definition setError (e : option string) (s : AuthState) : AuthState :=
  {| user := user s; accessToken := accessToken s;
     refreshToken := refreshToken s; isAuthenticated := isAuthenticated s;
     isLoading := isLoading s; isInitialized := isInitialized s; error := e |}.

Definition setInitialized (b : bool) (s : AuthState) : AuthState :=
  {| user := user s; accessToken := accessToken s;
     refreshToken := refreshToken s; isAuthenticated := isAuthenticated s;
     isLoading := isLoading s; isInitialized := b; error := error s |}.

(** [set({ isAuthenticated })], used by [initialize] only: the store has no
    action of its own for it. *)
Definition setAuthenticated (b : bool) (s : AuthState) : AuthState :=
  {| user := user s; accessToken := accessToken s;
     refreshToken := refreshToken s; isAuthenticated := b;
     isLoading := isLoading s; isInitialized := isInitialized s;
     error := error s |}.

(** [initialize] has no [await] in its body, so it runs in one piece.  The
    tokens it tests are the ones read by [get()] on entry.  Nothing in the
    [try] block can throw, so the [catch] branch is never taken; the
    [finally] block runs last. *)
Definition initialize (s : AuthState) : AuthState :=
  if isInitialized s then s
  else
    let s1 := setLoading true s in
    let s2 :=
      if truthy (accessToken s) && truthy (refreshToken s)
      then setAuthenticated true s1
      else setAuthenticated false s1 in
    setInitialized true (setLoading false s2).

Definition reset (_ : AuthState) : AuthState := initialState.

(** The actions of the store, with arguments of their TypeScript types. *)
Inductive Action :=
| ActSetAuth (u : User) (a r : string)
| ActClearAuth
| ActSetUser (u : User)
| ActSetTokens (a r : string)
| ActSetLoading (b : bool)
| ActSetError (e : option string)
| ActSetInitialized (b : bool)
| ActInitialize
| ActReset.

Definition dispatch (act : Action) (s : AuthState) : AuthState :=
  match act with
  | ActSetAuth u a r => setAuth u a r s
  | ActClearAuth => clearAuth s
  | ActSetUser u => setUser u s
  | ActSetTokens a r => setTokens a r s
  | ActSetLoading b => setLoading b s
  | ActSetError e => setError e s
  | ActSetInitialized b => setInitialized b s
  | ActInitialize => initialize s
  | ActReset => reset s
  end.

(** States the store can be in: the initial one and whatever the actions
    make of it. *)
Inductive reachable : AuthState -> Prop :=
| reach_initial : reachable initialState
| reach_dispatch act s : reachable s -> reachable (dispatch act s).

(** The session invariant of the data model. *)
Definition session_inv (s : AuthState) : Prop :=
  isAuthenticated s = true ->
  is_Some (accessToken s) /\ is_Some (refreshToken s).

(** A transition clears a token when one that was set is [null] after it. *)
Definition clears_token (s s' : AuthState) : Prop :=
  (is_Some (accessToken s) /\ accessToken s' = None) \/
  (is_Some (refreshToken s) /\ refreshToken s' = None).

(** The Session fields of two states agree. *)
Definition same_session (s s' : AuthState) : Prop :=
  user s' = user s /\ accessToken s' = accessToken s /\
  refreshToken s' = refreshToken s /\
  isAuthenticated s' = isAuthenticated s.

(** The Session fields are the ones [clearAuth] leaves. *)
Definition cleared (s : AuthState) : Prop :=
  user s = None /\ accessToken s = None /\ refreshToken s = None /\
  isAuthenticated s = false.

End Store.

Import Store.

(** ** The world the session code runs in *)

(** Keys of the Vault (SecureStorage.ts, useAuth.ts, AuthViewModel.ts). *)
Definition ACCESS_TOKEN_KEY : string := "access_token".
Definition REFRESH_TOKEN_KEY : string := "refresh_token".
Definition TOKEN_EXPIRY_KEY : string := "token_expiry".
Definition BIOMETRIC_CREDENTIALS_KEY : string := "biometric_credentials".
Definition REMEMBER_ME_KEY : string := "remember_me_email".

(** [5 * 60 * 1000] milliseconds. *)
Definition REFRESH_THRESHOLD : Z := 5 * 60 * 1000.

(** Requests sent to the Identity Gateway. *)
Inductive GatewayCall :=
| CallLogin (email password : string)
| CallLogout
| CallRefresh (token : string)
| CallMe (token : option string).

(** What [fetch] produces for a request: a response with [ok] set and its
    body as [parseResponse] gives it, a response with an error status and
    the [message] and [code] of its body (the status text and no code when
    the body is not JSON, no message when the body has none), an abort by
    the 30 s timer, or a rejection (no network).  Two more responses end in
    an [Error] of the runtime: one with [ok] set whose body is announced as
    JSON and is not ([response.json()] rejects with the [SyntaxError]
    [msg]), and one with an error status whose body is the JSON value
    [null] (reading [errorData.message] throws the [TypeError] [msg]).  The
    body of an [ok] response is of the type the caller expects. *)
Inductive Reply (A : Type) :=
| Ok (body : A)
| Fail (st : Z) (msg : string) (cd : option string)
| Timeout
| NetworkDown (msg : string)
| Unparsable (msg : string)
| NullError (st : Z) (msg : string).
Arguments Ok {A} body.
Arguments Fail {A} st msg cd.
Arguments Timeout {A}.
Arguments NetworkDown {A} msg.
Arguments Unparsable {A} msg.
Arguments NullError {A} st msg.

(** The Identity Gateway, a black box: its answer to each request. *)
Record Gateway := mkGateway {
  gw_login : string -> string -> Reply AuthResponse;
  gw_logout : Reply unit;
  gw_refresh : string -> Reply AuthResponse;
  gw_me : option string -> Reply User
}.

(** React state local to the view model ([useState] in AuthViewModel.ts). *)
Record ViewModel := mkViewModel {
  vm_isLoading : bool;
  vm_error : option string;
  vm_hasBiometrics : bool
}.

(** The store singleton, the platform keystore (its entries and whether its
    calls succeed), the clock read by [Date.now()], the requests sent so far
    (latest first) and the view model's local state.  No operation of the
    app changes [keystoreUp]: it is the condition of the platform, which
    [with_keystore] changes between two operations. *)
Record World := mkWorld {
  store : AuthState;
  vault : gmap string string;
  keystoreUp : bool;
  clock : Z;
  calls : list GatewayCall;
  vm : ViewModel
}.

Definition with_store (f : AuthState -> AuthState) (w : World) : World :=
  {| store := f (store w); vault := vault w; keystoreUp := keystoreUp w;
     clock := clock w; calls := calls w; vm := vm w |}.

Definition with_vault (f : gmap string string -> gmap string string)
    (w : World) : World :=
  {| store := store w; vault := f (vault w); keystoreUp := keystoreUp w;
     clock := clock w; calls := calls w; vm := vm w |}.

Definition with_call (c : GatewayCall) (w : World) : World :=
  {| store := store w; vault := vault w; keystoreUp := keystoreUp w;
     clock := clock w; calls := c :: calls w; vm := vm w |}.

Definition with_vm (f : ViewModel -> ViewModel) (w : World) : World :=
  {| store := store w; vault := vault w; keystoreUp := keystoreUp w;
     clock := clock w; calls := calls w; vm := f (vm w) |}.

(** The keystore becomes available ([true]) or unavailable ([false]). *)
Definition with_keystore (up : bool) (w : World) : World :=
  {| store := store w; vault := vault w; keystoreUp := up;
     clock := clock w; calls := calls w; vm := vm w |}.

(** ** Asynchronous operations *)

(** A thrown value: an [ApiError] object (not an [Error] instance) or an
    [Error] with its message. *)
Inductive Exn :=
| ExnApi (e : ApiError)
| ExnError (msg : string).

Inductive Result (A : Type) :=
| Ret (a : A)
| Throw (e : Exn).
Arguments Ret {A} a.
Arguments Throw {A} e.

(** An [async] function: it reads and writes the world, and at [Yield] it is
    suspended on a platform call ([fetch], SecureStore), where other
    operations may run before it is resumed.  Between two [Yield]s it runs
    in one piece (single-threaded, cooperative scheduling). *)
Inductive Task (A : Type) : Type :=
| Done (r : Result A)
| Get (k : World -> Task A)
| Put (w : World) (k : Task A)
| Yield (k : Task A).
Arguments Done {A} r.
Arguments Get {A} k.
Arguments Put {A} w k.
Arguments Yield {A} k.

Fixpoint bind {A B : Type} (t : Task A) (f : A -> Task B) : Task B :=
  match t with
  | Done (Ret a) => f a
  | Done (Throw e) => Done (Throw e)
  | Get k => Get (fun w => bind (k w) f)
  | Put w k => Put w (bind k f)
  | Yield k => Yield (bind k f)
  end.

#[export] Instance task_ret : MRet Task := fun A a => Done (Ret a).
#[export] Instance task_bind : MBind Task := fun A B f t => bind t f.

Definition throw {A : Type} (e : Exn) : Task A := Done (Throw e).

(** [try { t } catch (e) { h e }] *)
Fixpoint try_catch {A : Type} (t : Task A) (h : Exn -> Task A) : Task A :=
  match t with
  | Done (Ret a) => Done (Ret a)
  | Done (Throw e) => h e
  | Get k => Get (fun w => try_catch (k w) h)
  | Put w k => Put w (try_catch k h)
  | Yield k => Yield (try_catch k h)
  end.

(** [try { t } finally { f }]: [f] runs whatever the outcome of [t], which is
    then the outcome of the whole, unless [f] throws. *)
Fixpoint try_finally {A : Type} (t : Task A) (f : Task unit) : Task A :=
  match t with
  | Done r => bind f (fun _ => Done r)
  | Get k => Get (fun w => try_finally (k w) f)
  | Put w k => Put w (try_finally k f)
  | Yield k => Yield (try_finally k f)
  end.

Definition modify (f : World -> World) : Task unit :=
  Get (fun w => Put (f w) (Done (Ret tt))).

(** A synchronous store action. *)
Definition act (f : AuthState -> AuthState) : Task unit :=
  modify (with_store f).

(** Run to completion with nothing else scheduled in between. *)
Fixpoint run {A : Type} (t : Task A) (w : World) : Result A * World :=
  match t with
  | Done r => (r, w)
  | Get k => run (k w) w
  | Put w' k => run k w'
  | Yield k => run k w
  end.

(** Run up to the next suspension point: what is left of the task and the
    world it leaves to the others. *)
Fixpoint advance {A : Type} (t : Task A) (w : World) : Task A * World :=
  match t with
  | Done r => (Done r, w)
  | Get k => advance (k w) w
  | Put w' k => advance k w'
  | Yield k => (k, w)
  end.

(** A schedule for two operations: at each turn the first ([true]) or the
    second ([false]) runs up to its next suspension point. *)
Fixpoint interleave {A B : Type} (sched : list bool)
    (t1 : Task A) (t2 : Task B) (w : World) : Task A * Task B * World :=
  match sched with
  | [] => (t1, t2, w)
  | true :: sched' =>
      let '(t1', w') := advance t1 w in interleave sched' t1' t2 w'
  | false :: sched' =>
      let '(t2', w') := advance t2 w in interleave sched' t1 t2' w'
  end.

Definition finished {A : Type} (t : Task A) : bool :=
  match t with Done _ => true | _ => false end.

(** ** Numbers as strings *)

(** A JavaScript number is a double.  The numbers of the session code are
    integers (epochs in milliseconds); an integer is held exactly up to
    [Number.MAX_SAFE_INTEGER], and beyond that as the nearest double. *)
Definition MAX_SAFE_INTEGER : Z := 2 ^ 53 - 1.

(** [Number.isSafeInteger] on an integer. *)
Definition isSafeInteger (z : Z) : bool :=
  (Z.abs z <=? MAX_SAFE_INTEGER)%Z.

(** The double nearest to an integer, ties to the even significand (53
    bits).  The exponent is not bounded here: see [is_infinite]. *)
Definition round_double (z : Z) : Z :=
  let m := Z.abs z in
  if (m <? 2 ^ 53)%Z then z
  else
    let e := (Z.log2 m - 52)%Z in
    let q := Z.shiftr m e in
    let r := (m - Z.shiftl q e)%Z in
    let half := Z.shiftl 1 (e - 1) in
    let q' :=
      if ((half <? r) || ((r =? half) && Z.odd q))%Z then (q + 1)%Z else q in
    (Z.sgn z * Z.shiftl q' e)%Z.

(** A rounded magnitude past the largest double is [Infinity]. *)
Definition is_infinite (d : Z) : bool := (2 ^ 1024 <=? Z.abs d)%Z.

(** The decimal digits of an integer, with a minus sign when negative. *)
Definition decimal (z : Z) : string := NilZero.string_of_int (Z.to_int z).

(** The [k]-digit integer [s] for which [s * 10^(n-k)] is read back as the
    double [d], the one nearest to [d] (the even one on a tie) when there
    are several. *)
Definition digits_candidate (d : Z) (n k : nat) : option Z :=
  let u := (10 ^ Z.of_nat (n - k))%Z in
  let fits s :=
    ((10 ^ Z.of_nat (k - 1) <=? s) && (s <? 10 ^ Z.of_nat k) &&
     (round_double (s * u) =? d))%Z in
  let lo := (d / u)%Z in
  let hi := (lo + 1)%Z in
  if fits lo then
    if fits hi &&
       ((hi * u - d <? d - lo * u) ||
        ((hi * u - d =? d - lo * u) && Z.even hi))%Z
    then Some hi else Some lo
  else if fits hi then Some hi
  else None.

(** The shortest digits that denote the double [d], of [nd] decimal digits:
    the least [k], from [k] on, with a candidate, the candidate [s] and the
    [n] for which [d] is [s * 10^(n-k)] up to rounding. *)
Fixpoint shortest_digits (d : Z) (nd k fuel : nat) : option (Z * nat * nat) :=
  match fuel with
  | O => None
  | S fuel' =>
      match digits_candidate d nd k with
      | Some s => Some (s, nd, k)
      | None =>
          match digits_candidate d (S nd) k with
          | Some s => Some (s, S nd, k)
          | None => shortest_digits d nd (S k) fuel'
          end
      end
  end.

Fixpoint zeros (n : nat) : string :=
  match n with
  | O => EmptyString
  | S n' => String "0" (zeros n')
  end.

(** [Number::toString] on a positive integral double past the safe
    integers: the shortest digits, followed by zeros up to 21 digits, and in
    exponent form from [1e21] on.  Seventeen digits always denote a double,
    so the search finds one. *)
Definition toString_large (d : Z) : string :=
  let nd := String.length (decimal d) in
  match shortest_digits d nd 1 17 with
  | Some (s, n, k) =>
      if Nat.leb n 21 then decimal s ++ zeros (n - k)
      else
        match decimal s with
        | String c EmptyString =>
            String c EmptyString ++ "e+" ++ decimal (Z.of_nat (n - 1))
        | String c rest =>
            String c EmptyString ++ "." ++ rest ++ "e+" ++
            decimal (Z.of_nat (n - 1))
        | EmptyString => EmptyString
        end
  | None => decimal d
  end.

(** [Number.prototype.toString] on the number an integer [z] gives: the
    decimal digits of a safe integer, with a leading minus sign when
    negative; past the safe integers the digits of the nearest double. *)
Definition toString (z : Z) : string :=
  if isSafeInteger z then decimal z
  else
    let d := round_double z in
    if is_infinite d then (if (d <? 0)%Z then "-Infinity" else "Infinity")
    else (if (d <? 0)%Z then "-" else "") ++ toString_large (Z.abs d).

(** White space skipped by [parseInt] (the ASCII part of it: tab, line feed,
    vertical tab, form feed, carriage return, space). *)
Definition is_space (c : ascii) : bool :=
  let n := nat_of_ascii c in
  (Nat.leb 9 n && Nat.leb n 13) || Nat.eqb n 32.

Fixpoint skip_space (s : string) : string :=
  match s with
  | String c s' => if is_space c then skip_space s' else s
  | EmptyString => EmptyString
  end.

Definition digit_of (c : ascii) : option Z :=
  let n := Z.of_nat (nat_of_ascii c) in
  if ((48 <=? n) && (n <=? 57))%Z then Some (n - 48)%Z else None.

(** The value of the longest prefix of decimal digits; [acc] is the value
    of the digits read so far, [None] when there is none yet. *)
Fixpoint read_digits (s : string) (acc : option Z) : option Z :=
  match s with
  | String c s' =>
      match digit_of c with
      | Some d => read_digits s' (Some (10 * default 0 acc + d)%Z)
      | None => acc
      end
  | EmptyString => acc
  end.

(** The integer written at the head of a string: white space, a sign, then
    the digits up to the first character that is not one. *)
Definition read_integer (s : string) : option Z :=
  match skip_space s with
  | String "-" s' => Z.opp <$> read_digits s' None
  | String "+" s' => read_digits s' None
  | s' => read_digits s' None
  end.

(** [parseInt(s, 10)]: the integer at the head of the string as a number,
    that is, rounded to the nearest double; [None] is [NaN].  On the safe
    integers nothing is rounded; the properties below use it there, and on
    ["1e+21"].  A value past the largest double stands for [Infinity],
    which compares as it does. *)
Definition parseInt (s : string) : option Z :=
  round_double <$> read_integer s.

(** ** JSON text *)

Definition quote : string := String "034" EmptyString.
Definition backslash : string := String "092" EmptyString.

Definition hex_digit (n : nat) : string :=
  String.substring n 1 "0123456789abcdef".

(** [JSON.stringify] on one character of a string (a string is the
    sequence of the UTF-8 bytes of its text): the quote and the backslash
    are escaped, and so are the control characters, by their short form or
    by their code; every other character is copied. *)
Definition json_escape (c : ascii) : string :=
  let n := nat_of_ascii c in
  if Nat.eqb n 34 then backslash ++ quote
  else if Nat.eqb n 92 then backslash ++ backslash
  else if Nat.eqb n 8 then backslash ++ "b"
  else if Nat.eqb n 9 then backslash ++ "t"
  else if Nat.eqb n 10 then backslash ++ "n"
  else if Nat.eqb n 12 then backslash ++ "f"
  else if Nat.eqb n 13 then backslash ++ "r"
  else if Nat.ltb n 32 then
    backslash ++ "u00" ++ hex_digit (n / 16) ++ hex_digit (n mod 16)
  else String c EmptyString.

Fixpoint json_escape_all (s : string) : string :=
  match s with
  | String c s' => json_escape c ++ json_escape_all s'
  | EmptyString => EmptyString
  end.

(** [JSON.stringify] on a string. *)
Definition stringify_string (s : string) : string :=
  quote ++ json_escape_all s ++ quote.

(** [JSON.stringify({email, refreshToken})]: the two keys in this order. *)
Definition stringify_credentials (email token : string) : string :=
  "{" ++ stringify_string "email" ++ ":" ++ stringify_string email ++ ","
      ++ stringify_string "refreshToken" ++ ":" ++ stringify_string token
      ++ "}".

(** ** Credential Vault (services/storage/SecureStorage.ts) *)

(** The platform keystore (expo-secure-store).  A call takes effect when it
    is made and the caller is suspended until it settles; it rejects when
    the keystore is unavailable. *)
Definition keystore_unavailable : Exn := ExnError "keystore unavailable".

Definition getItemAsync (key : string) : Task (option string) :=
  Get (fun w =>
    Yield (if keystoreUp w then Done (Ret (vault w !! key))
           else throw keystore_unavailable)).

Definition setItemAsync (key value : string) : Task unit :=
  Get (fun w =>
    if keystoreUp w
    then Put (with_vault (insert key value) w) (Yield (Done (Ret tt)))
    else Yield (throw keystore_unavailable)).

Definition deleteItemAsync (key : string) : Task unit :=
  Get (fun w =>
    if keystoreUp w
    then Put (with_vault (delete key) w) (Yield (Done (Ret tt)))
    else Yield (throw keystore_unavailable)).

Definition getSecureValue (key : string) : Task (option string) :=
  try_catch (getItemAsync key) (fun _ => mret None).

Definition setSecureValue (key value : string) : Task bool :=
  try_catch (setItemAsync key value ;; mret true) (fun _ => mret false).

Definition deleteSecureValue (key : string) : Task bool :=
  try_catch (deleteItemAsync key ;; mret true) (fun _ => mret false).

(** ** Request pipeline (services/api/interceptors.ts, ApiClient.ts) *)

(** [handleUnauthorizedError]: with no refresh token in the store the auth
    state is cleared; with one, the refresh is left to the auth hook. *)
Definition handleUnauthorizedError (e : ApiError) : Task ApiError :=
  Get (fun w =>
    if truthy (refreshToken (store w)) then mret e
    else
      act clearAuth ;;
      mret {| status := status e;
              message := "Session expired. Please sign in again.";
              code := code e |}).

Definition with_message (m : string) (e : ApiError) : ApiError :=
  {| status := status e; message := m; code := code e |}.

(** The error interceptor installed by [setupInterceptors]. *)
Definition errorInterceptor (e : ApiError) : Task ApiError :=
  if (status e =? 401)%Z then handleUnauthorizedError e
  else if (status e =? 403)%Z then
    mret (with_message "You do not have permission to perform this action" e)
  else if (status e =? 404)%Z then
    mret (with_message (str_or (message e) "Resource not found") e)
  else if (status e =? 422)%Z then
    mret (with_message (str_or (message e) "Validation failed") e)
  else if (status e =? 429)%Z then
    mret (with_message "Too many requests. Please try again later." e)
  else if ((status e =? 500) || (status e =? 502) || (status e =? 503))%Z then
    mret (with_message "Server error. Please try again later." e)
  else
    mret (with_message (str_or (message e) "An unexpected error occurred") e).

(** [ApiClient.applyErrorInterceptors]: the error goes through the
    registered interceptors in turn. *)
Fixpoint applyErrorInterceptors
    (interceptors : list (ApiError -> Task ApiError)) (e : ApiError)
    : Task ApiError :=
  match interceptors with
  | [] => mret e
  | interceptor :: rest =>
      e' ← interceptor e; applyErrorInterceptors rest e'
  end.

(** The interceptors of the [ApiClient] singleton: its constructor calls
    [setupInterceptors], which registers one error interceptor. *)
Definition errorInterceptors : list (ApiError -> Task ApiError) :=
  [errorInterceptor].

(** [ApiClient.request]: the request is sent ([fetch]); an error response is
    turned into an [ApiError] ([handleError]) and passed through the error
    interceptors before it is thrown, and so is a timeout (status 408); a
    rejected [fetch] is thrown as it is, and so are the [SyntaxError] of a
    body that does not parse and the [TypeError] of a [null] error body,
    which the interceptors never see.  The request interceptor only reads
    the store to add the [Authorization] header. *)
Definition request {A : Type} (c : GatewayCall) (reply : Reply A) : Task A :=
  modify (with_call c) ;;
  Yield
    match reply with
    | Ok body => mret body
    | Fail st msg cd =>
        e ← applyErrorInterceptors errorInterceptors
              {| status := st; message := str_or msg "An error occurred";
                 code := cd |};
        throw (ExnApi e)
    | Timeout =>
        e ← applyErrorInterceptors errorInterceptors
              {| status := 408; message := "Request timeout";
                 code := Some "TIMEOUT" |};
        throw (ExnApi e)
    | NetworkDown msg => throw (ExnError msg)
    | Unparsable msg => throw (ExnError msg)
    | NullError _ msg => throw (ExnError msg)
    end.

(** ** Auth service (services/api/AuthService.ts) *)

Module AuthService.

Definition login (gw : Gateway) (email password : string)
    : Task AuthResponse :=
  request (CallLogin email password) (gw_login gw email password).

(** Errors of the logout request are caught and logged. *)
Definition logout (gw : Gateway) : Task unit :=
  try_catch (request CallLogout (gw_logout gw)) (fun _ => mret tt).

Definition refreshSession (gw : Gateway) (token : string)
    : Task AuthResponse :=
  request (CallRefresh token) (gw_refresh gw token).

(** The token the gateway receives with a request: the request
    interceptor writes the store's access token, when there is one, over
    the [Authorization] header the caller has set. *)
Definition sentToken (token : option string) (w : World) : option string :=
  if truthy (accessToken (store w)) then accessToken (store w)
  else if truthy token then token
  else None.

Definition getCurrentUser (gw : Gateway) (token : option string)
    : Task User :=
  Get (fun w =>
    let sent := sentToken token w in
    request (CallMe sent) (gw_me gw sent)).

End AuthService.

(** ** The auth hook (hooks/useAuth.ts) *)

(** The value of [refreshToken || await getSecureValue(REFRESH_TOKEN_KEY)]
    in a world: the store's token when it is truthy, else the Vault's. *)
Definition currentRefreshToken (w : World) : option string :=
  if truthy (refreshToken (store w)) then refreshToken (store w)
  else if keystoreUp w then vault w !! REFRESH_TOKEN_KEY
  else None.

Module UseAuth.

(** [shouldRefreshToken]: no expiry stored (or an empty one) gives [false];
    an expiry that does not parse is [NaN], and a comparison with [NaN] is
    [false]. *)
Definition shouldRefreshToken : Task bool :=
  try_catch
    (expiryString ← getSecureValue TOKEN_EXPIRY_KEY;
     if negb (truthy expiryString) then mret false
     else
       let expiry := parseInt (default "" expiryString) in
       Get (fun w =>
         let now := clock w in
         mret match expiry with
              | Some e => (e - now <? REFRESH_THRESHOLD)%Z
              | None => false
              end))
    (fun _ => mret false).

Definition logout (gw : Gateway) : Task unit :=
  try_finally
    (try_catch (AuthService.logout gw) (fun _ => mret tt))
    (deleteSecureValue ACCESS_TOKEN_KEY ;;
     deleteSecureValue REFRESH_TOKEN_KEY ;;
     deleteSecureValue TOKEN_EXPIRY_KEY ;;
     act clearAuth).

(** The [refreshToken] of the closure is the store's at the time of the
    call: the hook is rendered again, and the callback made anew, whenever
    the store changes. *)
Definition refreshSession (gw : Gateway) : Task bool :=
  Get (fun w =>
    let refreshToken := refreshToken (store w) in
    currentRefreshToken ←
      (if truthy refreshToken then mret refreshToken
       else getSecureValue REFRESH_TOKEN_KEY);
    if negb (truthy currentRefreshToken) then
      act clearAuth ;; mret false
    else
      try_catch
        (response ← AuthService.refreshSession gw
                      (default "" currentRefreshToken);
         setSecureValue ACCESS_TOKEN_KEY (r_accessToken response) ;;
         setSecureValue REFRESH_TOKEN_KEY (r_refreshToken response) ;;
         setSecureValue TOKEN_EXPIRY_KEY (toString (r_expiresAt response)) ;;
         act (setAuth (r_user response) (r_accessToken response)
                (r_refreshToken response)) ;;
         mret true)
        (fun _ => logout gw ;; mret false)).

Definition login (gw : Gateway) (email password : string) : Task unit :=
  act (setLoading true) ;;
  try_finally
    (response ← AuthService.login gw email password;
     setSecureValue ACCESS_TOKEN_KEY (r_accessToken response) ;;
     setSecureValue REFRESH_TOKEN_KEY (r_refreshToken response) ;;
     setSecureValue TOKEN_EXPIRY_KEY (toString (r_expiresAt response)) ;;
     act (setAuth (r_user response) (r_accessToken response)
            (r_refreshToken response)))
    (act (setLoading false)).

Definition checkAuthStatus (gw : Gateway) : Task bool :=
  act (setLoading true) ;;
  try_finally
    (try_catch
       (storedToken ← getSecureValue ACCESS_TOKEN_KEY;
        storedRefreshToken ← getSecureValue REFRESH_TOKEN_KEY;
        if negb (truthy storedToken) || negb (truthy storedRefreshToken) then
          act clearAuth ;; mret false
        else
          due ← shouldRefreshToken;
          if due : bool then refreshSession gw
          else
            try_catch
              (userData ← AuthService.getCurrentUser gw storedToken;
               act (setAuth userData (default "" storedToken)
                      (default "" storedRefreshToken)) ;;
               mret true)
              (fun _ => refreshSession gw))
       (fun _ => act clearAuth ;; mret false))
    (act (setLoading false)).

End UseAuth.

(** ** The auth view model (screens/auth/AuthViewModel.ts) *)

Definition set_vm_isLoading (b : bool) (v : ViewModel) : ViewModel :=
  {| vm_isLoading := b; vm_error := vm_error v;
     vm_hasBiometrics := vm_hasBiometrics v |}.

Definition set_vm_error (e : option string) (v : ViewModel) : ViewModel :=
  {| vm_isLoading := vm_isLoading v; vm_error := e;
     vm_hasBiometrics := vm_hasBiometrics v |}.

Definition set_vm_hasBiometrics (b : bool) (v : ViewModel) : ViewModel :=
  {| vm_isLoading := vm_isLoading v; vm_error := vm_error v;
     vm_hasBiometrics := b |}.

Module AuthViewModel.

Definition setIsLoading (b : bool) : Task unit :=
  modify (with_vm (set_vm_isLoading b)).

Definition setError (e : option string) : Task unit :=
  modify (with_vm (set_vm_error e)).

Definition setHasBiometrics (b : bool) : Task unit :=
  modify (with_vm (set_vm_hasBiometrics b)).

Definition clearError : Task unit :=
  setError None ;; act (Store.setError None).

(** [err instanceof Error ? err.message : fallback]; the [ApiError] thrown
    by the API client is a plain object. *)
Definition errorMessage (err : Exn) (fallback : string) : string :=
  match err with
  | ExnError m => m
  | ExnApi _ => fallback
  end.

Definition login (gw : Gateway) (email password : string)
    (rememberMe : bool) : Task unit :=
  setIsLoading true ;;
  act (setLoading true) ;;
  clearError ;;
  try_finally
    (try_catch
       (response ← AuthService.login gw email password;
        act (setAuth (r_user response) (r_accessToken response)
               (r_refreshToken response)) ;;
        if rememberMe then
          setSecureValue REMEMBER_ME_KEY email ;;
          setSecureValue BIOMETRIC_CREDENTIALS_KEY
            (stringify_credentials email (r_refreshToken response)) ;;
          setHasBiometrics true
        else
          deleteSecureValue REMEMBER_ME_KEY ;; mret tt)
       (fun err =>
          let m := errorMessage err "Login failed" in
          setError (Some m) ;;
          act (Store.setError (Some m)) ;;
          throw err))
    (setIsLoading false ;; act (setLoading false)).

Definition logout (gw : Gateway) : Task unit :=
  setIsLoading true ;;
  try_finally
    (try_catch (AuthService.logout gw) (fun _ => mret tt))
    (act clearAuth ;;
     deleteSecureValue BIOMETRIC_CREDENTIALS_KEY ;;
     setHasBiometrics false ;;
     setIsLoading false).

End AuthViewModel.

(** ** A refresh whose response is still to be applied *)

(** [Resuming resp t]: [t] is what is left of a [refreshSession] that has
    received the response [resp].  Run to its end from any world it returns
    true and writes the session of [resp] into the store, and whenever it is
    resumed for one more step, what is left, unless finished, is again of
    this kind. *)
Inductive Resuming (resp : AuthResponse) : Task bool -> Prop :=
| resuming_intro (t : Task bool) :
    (forall w : World,
       fst (run t w) = Ret true /\
       store (snd (run t w)) =
         setAuth (r_user resp) (r_accessToken resp) (r_refreshToken resp)
           (store w)) ->
    (forall w : World,
       finished (fst (advance t w)) = false ->
       Resuming resp (fst (advance t w))) ->
    Resuming resp t.

(** ** Sample data *)

Definition sample_user : User :=
  {| u_id := "1"; u_email := "test@example.com"; u_firstName := "John";
     u_lastName := "Doe"; u_username := None; u_avatar := None;
     u_bio := None; u_phone := None; u_website := None; u_location := None;
     u_emailVerified := true; u_createdAt := "2024-01-01T00:00:00.000Z";
     u_updatedAt := "2024-01-01T00:00:00.000Z" |}.

Definition logged_in : AuthState :=
  setAuth sample_user "access-token" "refresh-token" initialState.

Definition sample_response : AuthResponse :=
  {| r_user := sample_user; r_accessToken := "new-access-token";
     r_refreshToken := "new-refresh-token"; r_expiresAt := 1700003600000 |}.

Definition sample_vault : gmap string string :=
  <[ACCESS_TOKEN_KEY := "access-token"]>
    (<[REFRESH_TOKEN_KEY := "refresh-token"]>
       (<[TOKEN_EXPIRY_KEY := "1700000000000"]>
          (<[BIOMETRIC_CREDENTIALS_KEY :=
               stringify_credentials "test@example.com" "refresh-token"]>
             ∅))).

(** A logged-in session that was opened with "remember me". *)
Definition sample_world : World :=
  {| store := logged_in; vault := sample_vault; keystoreUp := true;
     clock := 1699999000000; calls := [];
     vm := {| vm_isLoading := false; vm_error := None;
              vm_hasBiometrics := true |} |}.

(** A gateway that accepts everything. *)
Definition accepting_gateway : Gateway :=
  {| gw_login := fun _ _ => Ok sample_response;
     gw_logout := Ok tt;
     gw_refresh := fun _ => Ok sample_response;
     gw_me := fun _ => Ok sample_user |}.

(** A gateway that rejects every request with a 401. *)
Definition rejecting_gateway : Gateway :=
  {| gw_login := fun _ _ => Fail 401 "Invalid credentials" None;
     gw_logout := Fail 401 "Unauthorized" None;
     gw_refresh := fun _ => Fail 401 "Invalid refresh token" None;
     gw_me := fun _ => Fail 401 "Unauthorized" None |}.

(** The sample session at a later time, the refresh due since four
    minutes, with the keystore out of reach. *)
Definition locked_world : World :=
  {| store := logged_in; vault := sample_vault; keystoreUp := false;
     clock := 1699999940000; calls := [];
     vm := {| vm_isLoading := false; vm_error := None;
              vm_hasBiometrics := true |} |}.

(** The sample session with an expiry of [1e21] ms, stored as the hook
    stores it. *)
Definition far_expiry_world : World :=
  with_vault (insert TOKEN_EXPIRY_KEY (toString (10 ^ 21))) sample_world.

(** The app before anyone has logged in. *)
Definition fresh_world : World :=
  {| store := initialState; vault := ∅; keystoreUp := true;
     clock := 1699999000000; calls := [];
     vm := {| vm_isLoading := false; vm_error := None;
              vm_hasBiometrics := false |} |}.

(** Nobody is logged in, but a profile has been put in the store with
    [setUser] (as the store's own test "updates user data" does). *)
Definition profile_only_world : World :=
  with_store (setUser sample_user) fresh_world.

Definition unauthorized : ApiError :=
  {| status := 401; message := "Unauthorized"; code := None |}.

Definition rate_limited : ApiError :=
  {| status := 429; message := "Too Many Requests"; code := None |}.

(** ** Outgoing requests (ApiClient.ts, interceptors.ts) *)

(** [RequestConfig] without the abort signal; an absent key is [None]. *)
Record RequestConfig := mkRequestConfig {
  rc_method : option string;
  rc_url : option string;
  rc_headers : option (gmap string string);
  rc_body : option string;
  rc_params : option (gmap string string)
}.

Definition with_headers (h : gmap string string) (c : RequestConfig)
    : RequestConfig :=
  {| rc_method := rc_method c; rc_url := rc_url c; rc_headers := Some h;
     rc_body := rc_body c; rc_params := rc_params c |}.

(** The object [{ method, headers: { 'Content-Type': ..., ...options.headers },
    signal, ...options }] built by [ApiClient.request]: the keys of
    [options] come last, so they win. *)
Definition initialConfig (method : string) (options : RequestConfig)
    : RequestConfig :=
  {| rc_method :=
       match rc_method options with Some m => Some m | None => Some method end;
     rc_url := rc_url options;
     rc_headers :=
       match rc_headers options with
       | Some h => Some h
       | None => Some (<["Content-Type" := "application/json"]> ∅)
       end;
     rc_body := rc_body options;
     rc_params := rc_params options |}.

(** The request interceptor of [setupInterceptors]: the access token is read
    from the store when the request is made; in development a time stamp is
    added ([dev] is [__DEV__], [requestTime] is the ISO date of the call). *)
Definition requestInterceptor (dev : bool) (requestTime : string)
    (config : RequestConfig) : Task RequestConfig :=
  Get (fun w =>
    let accessToken := accessToken (store w) in
    let config1 :=
      if truthy accessToken then
        with_headers
          (<["Authorization" := "Bearer " ++ default "" accessToken]>
             (default ∅ (rc_headers config))) config
      else config in
    let config2 :=
      if dev then
        with_headers
          (<["X-Request-Time" := requestTime]>
             (default ∅ (rc_headers config1))) config1
      else config1 in
    mret config2).

(** The second request interceptor, registered in development: it logs. *)
Definition loggingInterceptor (config : RequestConfig)
    : Task RequestConfig :=
  mret config.

Fixpoint applyRequestInterceptors
    (interceptors : list (RequestConfig -> Task RequestConfig))
    (config : RequestConfig) : Task RequestConfig :=
  match interceptors with
  | [] => mret config
  | interceptor :: rest =>
      config' ← interceptor config; applyRequestInterceptors rest config'
  end.

Definition requestInterceptors (dev : bool) (requestTime : string)
    : list (RequestConfig -> Task RequestConfig) :=
  requestInterceptor dev requestTime ::
  (if dev then [loggingInterceptor] else []).

(** The configuration [ApiClient.request] hands to [fetch]. *)
Definition prepareRequest (dev : bool) (requestTime : string)
    (method : string) (options : RequestConfig) : Task RequestConfig :=
  applyRequestInterceptors (requestInterceptors dev requestTime)
    (initialConfig method options).

(** An [ApiError] with its [retryAttempt] field. *)
Record TrackedError := mkTrackedError {
  te_error : ApiError;
  te_retryAttempt : option Z
}.

(** [[408, 500, 502, 503, 504].includes(error.status)] *)
Definition shouldRetry (st : Z) : bool :=
  existsb (Z.eqb st) [408; 500; 502; 503; 504]%Z.

(** One call of the interceptor made by [createRetryInterceptor]:
    [retryCount] is the counter of the closure; the result is the new
    counter, the time waited (ms) and the error returned.  Calls are taken
    one after the other: none starts while another is waiting. *)
Definition retryInterceptor (maxRetries retryDelay : Z) (retryCount : Z)
    (error : TrackedError) : Z * Z * TrackedError :=
  if shouldRetry (status (te_error error)) && (retryCount <? maxRetries)%Z
  then
    let retryCount' := (retryCount + 1)%Z in
    (retryCount', (retryDelay * retryCount')%Z,
     {| te_error := te_error error; te_retryAttempt := Some retryCount' |})
  else (0%Z, 0%Z, error).

(** The interceptor called on a series of errors, the counter starting at
    [retryCount]: the final counter and, for each error, the time waited
    and the error returned. *)
Fixpoint retrySeries (maxRetries retryDelay : Z) (retryCount : Z)
    (errors : list TrackedError) : Z * list (Z * TrackedError) :=
  match errors with
  | [] => (retryCount, [])
  | error :: rest =>
      let '(count', waited, error') :=
        retryInterceptor maxRetries retryDelay retryCount error in
      let '(final, out) := retrySeries maxRetries retryDelay count' rest in
      (final, (waited, error') :: out)
  end.

(** ** Scheduled refresh (hooks/useAuth.ts) *)

Inductive AppStateStatus :=
| AppActive
| AppBackground
| AppInactive.

Module RefreshSchedule.

(** [handleAppStateChange]: [lastRefreshCheck] is the hook's state, and the
    value returned is that state after the event.  [isAuthenticated] is the
    store's at the time of the event. *)
Definition handleAppStateChange (gw : Gateway) (lastRefreshCheck : Z)
    (nextAppState : AppStateStatus) : Task Z :=
  match nextAppState with
  | AppActive =>
      Get (fun w =>
        let now := clock w in
        if (now - lastRefreshCheck <? 30000)%Z then mret lastRefreshCheck
        else
          (if isAuthenticated (store w) then
             due ← UseAuth.shouldRefreshToken;
             if due : bool then UseAuth.refreshSession gw ;; mret tt
             else mret tt
           else mret tt) ;;
          mret now)
  | _ => mret lastRefreshCheck
  end.

(** [checkAndRefresh], run every minute while authenticated. *)
Definition checkAndRefresh (gw : Gateway) : Task unit :=
  due ← UseAuth.shouldRefreshToken;
  if due : bool then UseAuth.refreshSession gw ;; mret tt else mret tt.

End RefreshSchedule.

(** ** Biometric login (screens/auth/AuthViewModel.ts) *)

(** The bundle kept under [biometric_credentials]: the three places that
    write it ([login] with "remember me", [loginWithSocial] and
    [loginWithBiometrics]) write an object with the two keys [email] and
    [refreshToken]. *)
Record Credentials := mkCredentials {
  c_email : string;
  c_refreshToken : string
}.

Module Biometrics.

(** [loginWithBiometrics].  [JSON_parse] is [JSON.parse] on the stored
    bundle: it returns the credentials or throws.  With the two keys of the
    bundle, [{...credentials, refreshToken}] is the object with the e-mail
    of the bundle and the new refresh token, in this order. *)
Definition loginWithBiometrics (JSON_parse : string -> Result Credentials)
    (gw : Gateway) : Task unit :=
  AuthViewModel.setIsLoading true ;;
  act (setLoading true) ;;
  AuthViewModel.clearError ;;
  try_finally
    (try_catch
       (credentialsJson ← getSecureValue BIOMETRIC_CREDENTIALS_KEY;
        if negb (truthy credentialsJson) then
          throw (ExnError "No biometric credentials found")
        else
          credentials ← Done (JSON_parse (default "" credentialsJson));
          response ← AuthService.refreshSession gw
                        (c_refreshToken credentials);
          act (setAuth (r_user response) (r_accessToken response)
                 (r_refreshToken response)) ;;
          setSecureValue BIOMETRIC_CREDENTIALS_KEY
            (stringify_credentials (c_email credentials)
               (r_refreshToken response)) ;;
          mret tt)
       (fun err =>
          let m := AuthViewModel.errorMessage err "Biometric login failed" in
          AuthViewModel.setError (Some m) ;;
          act (Store.setError (Some m)) ;;
          deleteSecureValue BIOMETRIC_CREDENTIALS_KEY ;;
          AuthViewModel.setHasBiometrics false ;;
          throw err))
    (AuthViewModel.setIsLoading false ;; act (setLoading false)).

End Biometrics.

(** A [JSON.parse] for the samples: it reads the bundle of the sample
    vault and rejects everything else. *)
Definition sample_parse (json : string) : Result Credentials :=
  if String.eqb json
       (stringify_credentials "test@example.com" "refresh-token")
  then Ret {| c_email := "test@example.com";
              c_refreshToken := "refresh-token" |}
  else Throw (ExnError "Unexpected token").

(** A state as it may come back from persisted storage: flagged as
    authenticated, without tokens. *)
Definition stale_state : AuthState :=
  {| user := Some sample_user; accessToken := None; refreshToken := None;
     isAuthenticated := true; isLoading := false; isInitialized := false;
     error := None |}.

(** A gateway that cannot be reached in time. *)
Definition unreachable_gateway : Gateway :=
  {| gw_login := fun _ _ => Timeout;
     gw_logout := Timeout;
     gw_refresh := fun _ => Timeout;
     gw_me := fun _ => Timeout |}.

(** * Properties *)

(** ** The store's own tests (__tests__/stores/authSlice.test.ts) *)

Example test_sets_auth_data :
  let s := setAuth sample_user "access-token-123" "refresh-token-456"
             initialState in
  user s = Some sample_user /\ accessToken s = Some "access-token-123" /\
  refreshToken s = Some "refresh-token-456" /\ isAuthenticated s = true /\
  isLoading s = false /\ error s = None.
Proof. repeat split. Qed.

Example test_clears_auth_data :
  let s := clearAuth (setAuth sample_user "token" "refresh" initialState) in
  user s = None /\ accessToken s = None /\ refreshToken s = None /\
  isAuthenticated s = false.
Proof. repeat split. Qed.

Example test_resets_to_initial_state :
  reset (setError (Some "error")
           (setAuth sample_user "token" "refresh" initialState))
  = initialState.
Proof. reflexivity. Qed.

Example test_initializes_with_existing_tokens :
  let s := initialize
             (setInitialized false
                (setTokens "existing-access" "existing-refresh"
                   (reset initialState))) in
  isInitialized s = true /\ isAuthenticated s = true /\ isLoading s = false.
Proof. repeat split. Qed.

Example test_initializes_without_tokens :
  let s := initialize (reset initialState) in
  isInitialized s = true /\ isAuthenticated s = false.
Proof. repeat split. Qed.

(** [parseInt] on a few strings. *)
Example parseInt_samples :
  parseInt "1700000000000" = Some 1700000000000%Z /\
  parseInt "  42px" = Some 42%Z /\
  parseInt "-7" = Some (-7)%Z /\
  parseInt "+5" = Some 5%Z /\
  parseInt "1e3" = Some 1%Z /\
  parseInt "" = None /\
  parseInt "-" = None /\
  parseInt "soon" = None.
Proof. repeat split. Qed.

Example toString_samples :
  toString 1700003600000 = "1700003600000" /\
  toString 0 = "0" /\
  toString (-15) = "-15".
Proof. repeat split. Qed.

(** [JSON.stringify] on a bundle and on strings that need escaping. *)
Example stringify_samples :
  stringify_credentials "test@example.com" "refresh-token" =
    "{" ++ quote ++ "email" ++ quote ++ ":" ++ quote ++ "test@example.com"
        ++ quote ++ "," ++ quote ++ "refreshToken" ++ quote ++ ":" ++ quote
        ++ "refresh-token" ++ quote ++ "}" /\
  stringify_string ("a" ++ quote ++ "b" ++ backslash ++ "c") =
    quote ++ "a" ++ backslash ++ quote ++ "b" ++ backslash ++ backslash
          ++ "c" ++ quote /\
  stringify_string (String "010" (String "001" (String "127" EmptyString))) =
    quote ++ backslash ++ "n" ++ backslash ++ "u0001"
          ++ String "127" EmptyString ++ quote.
Proof. repeat split. Qed.

(** ** The store *)

Lemma truthy_is_Some (o : option string) : truthy o = true -> is_Some o.
Proof. destruct o; [eauto | discriminate]. Qed.

Lemma dispatch_preserves_inv (act : Action) (s : AuthState) :
  session_inv s -> session_inv (dispatch act s).
Proof.
  unfold session_inv.
  destruct act; simpl; intros Hinv; try exact Hinv; try discriminate; eauto.
  unfold initialize.
  destruct (isInitialized s); [exact Hinv |].
  destruct (truthy (accessToken s)) eqn:Ha;
    destruct (truthy (refreshToken s)) eqn:Hr; simpl; try discriminate.
  intros _. split; apply truthy_is_Some; assumption.
Qed.

Lemma reachable_inv (s : AuthState) : reachable s -> session_inv s.
Proof.
  induction 1 as [| act s _ IH].
  - intros H. discriminate H.
  - apply dispatch_preserves_inv, IH.
Qed.

Lemma initialize_tokens (s : AuthState) :
  accessToken (initialize s) = accessToken s /\
  refreshToken (initialize s) = refreshToken s.
Proof.
  unfold initialize.
  destruct (isInitialized s); [done |].
  destruct (truthy (accessToken s) && truthy (refreshToken s)); done.
Qed.

Lemma dispatch_clears_both (act : Action) (s : AuthState) :
  clears_token s (dispatch act s) ->
  isAuthenticated (dispatch act s) = false /\
  accessToken (dispatch act s) = None /\
  refreshToken (dispatch act s) = None.
Proof.
  assert (Hkeep : forall s' : AuthState,
            accessToken s' = accessToken s ->
            refreshToken s' = refreshToken s ->
            ~ clears_token s s').
  { intros s' Ha Hr [[[x Hx] Hn] | [[x Hx] Hn]]; congruence. }
  destruct act; simpl; try done;
    try (intros Hc; exfalso; revert Hc; apply Hkeep; reflexivity).
  - intros [[_ Hn] | [_ Hn]]; discriminate Hn.
  - intros [[_ Hn] | [_ Hn]]; discriminate Hn.
  - intros Hc. exfalso. revert Hc.
    destruct (initialize_tokens s). apply Hkeep; assumption.
Qed.

(** C4.  In every reachable state of the auth store, and for every store
    action ([setAuth], [clearAuth], [setUser], [setTokens], [setLoading],
    [setError], [setInitialized], [initialize], [reset]), the invariant
    "[isAuthenticated] implies [accessToken] and [refreshToken] not null"
    holds before and after the action; and an action that clears a token
    leaves [isAuthenticated] false and both tokens null. *)
Theorem store_invariant_preserved (s : AuthState) (act : Action) :
  reachable s ->
  session_inv s /\
  session_inv (dispatch act s) /\
  (clears_token s (dispatch act s) ->
   isAuthenticated (dispatch act s) = false /\
   accessToken (dispatch act s) = None /\
   refreshToken (dispatch act s) = None).
Proof.
  intros Hreach. split; [| split].
  - apply reachable_inv, Hreach.
  - apply dispatch_preserves_inv, reachable_inv, Hreach.
  - apply dispatch_clears_both.
Qed.

Lemma store_invariant_preserved_witness :
  reachable logged_in /\
  session_inv logged_in /\
  session_inv (clearAuth logged_in) /\
  (clears_token logged_in (clearAuth logged_in) ->
   isAuthenticated (clearAuth logged_in) = false /\
   accessToken (clearAuth logged_in) = None /\
   refreshToken (clearAuth logged_in) = None).
Proof.
  assert (Hr : reachable logged_in).
  { exact (reach_dispatch
             (ActSetAuth sample_user "access-token" "refresh-token")
             initialState reach_initial). }
  split; [exact Hr |].
  exact (store_invariant_preserved logged_in ActClearAuth Hr).
Defined.

(** C6.  From any state with [isInitialized] false, [initialize] ends with
    [isInitialized] true and [isLoading] false, and [isAuthenticated] is
    true exactly when both tokens are present (a token is present when it
    passes the code's test: not null and not the empty string).  After
    [setTokens("existing-access", "existing-refresh")] it gives
    [isAuthenticated] true; with no stored tokens it gives false. *)
Theorem initialize_reconciles (s : AuthState) :
  isInitialized s = false ->
  (isInitialized (initialize s) = true /\
   isLoading (initialize s) = false /\
   (isAuthenticated (initialize s) = true <->
    truthy (accessToken s) = true /\ truthy (refreshToken s) = true)) /\
  (let s' := initialize (setTokens "existing-access" "existing-refresh" s) in
   isInitialized s' = true /\ isAuthenticated s' = true /\
   isLoading s' = false) /\
  (accessToken s = None -> refreshToken s = None ->
   isInitialized (initialize s) = true /\
   isAuthenticated (initialize s) = false).
Proof.
  intros Hinit. unfold initialize. simpl. rewrite Hinit.
  split; [| split].
  - destruct (truthy (accessToken s)), (truthy (refreshToken s)); simpl;
      (split; [reflexivity | split; [reflexivity |]]);
      split; try tauto; try discriminate; intros [? ?]; discriminate.
  - simpl. done.
  - intros -> ->. simpl. done.
Qed.

Lemma initialize_reconciles_witness :
  isInitialized initialState = false /\
  isInitialized (initialize initialState) = true /\
  isAuthenticated (initialize initialState) = false /\
  isAuthenticated
    (initialize (setTokens "existing-access" "existing-refresh" initialState))
  = true.
Proof.
  split; [reflexivity |].
  destruct (initialize_reconciles initialState eq_refl)
    as [_ [[_ [Hauth _]] Hnone]].
  destruct (Hnone eq_refl eq_refl) as [Hi Ha].
  split; [exact Hi |]. split; [exact Ha | exact Hauth].
Defined.

(** ** Running tasks *)

Lemma run_ret {A : Type} (a : A) (w : World) : run (mret a) w = (Ret a, w).
Proof. reflexivity. Qed.

Lemma run_throw {A : Type} (e : Exn) (w : World) :
  run (throw e : Task A) w = (Throw e, w).
Proof. reflexivity. Qed.

Lemma run_bind {A B : Type} (t : Task A) (f : A -> Task B) (w : World) :
  run (t ≫= f) w =
  match run t w with
  | (Ret a, w') => run (f a) w'
  | (Throw e, w') => (Throw e, w')
  end.
Proof.
  unfold mbind, task_bind. revert w.
  induction t as [[a | e] | k IH | w' k IH | k IH]; intros w; simpl; auto.
Qed.

Lemma run_try_catch {A : Type} (t : Task A) (h : Exn -> Task A) (w : World) :
  run (try_catch t h) w =
  match run t w with
  | (Ret a, w') => (Ret a, w')
  | (Throw e, w') => run (h e) w'
  end.
Proof.
  revert w.
  induction t as [[a | e] | k IH | w' k IH | k IH]; intros w; simpl; auto.
Qed.

Lemma run_try_finally {A : Type} (t : Task A) (f : Task unit) (w : World) :
  run (try_finally t f) w =
  match run t w with
  | (r, w') =>
      match run f w' with
      | (Ret _, w'') => (r, w'')
      | (Throw e, w'') => (Throw e, w'')
      end
  end.
Proof.
  revert w.
  induction t as [r | k IH | w' k IH | k IH]; intros w; simpl; auto.
  change (bind f (fun _ => Done r)) with (f ≫= (fun _ : unit => Done r)).
  rewrite run_bind. destruct (run f w) as [[[] | e] w'']; reflexivity.
Qed.

Lemma run_yield {A : Type} (k : Task A) (w : World) :
  run (Yield k) w = run k w.
Proof. reflexivity. Qed.

Lemma run_get {A : Type} (k : World -> Task A) (w : World) :
  run (Get k) w = run (k w) w.
Proof. reflexivity. Qed.

Lemma run_modify (f : World -> World) (w : World) :
  run (modify f) w = (Ret tt, f w).
Proof. reflexivity. Qed.

Lemma run_act (f : AuthState -> AuthState) (w : World) :
  run (act f) w = (Ret tt, with_store f w).
Proof. reflexivity. Qed.

(** ** The Vault *)

Lemma run_getSecureValue (key : string) (w : World) :
  run (getSecureValue key) w =
  (Ret (if keystoreUp w then vault w !! key else None), w).
Proof.
  unfold getSecureValue. rewrite run_try_catch. simpl.
  destruct (keystoreUp w); reflexivity.
Qed.

Lemma run_setSecureValue (key value : string) (w : World) :
  run (setSecureValue key value) w =
  if keystoreUp w then (Ret true, with_vault (insert key value) w)
  else (Ret false, w).
Proof.
  unfold setSecureValue. rewrite run_try_catch, run_bind. simpl.
  destruct (keystoreUp w); reflexivity.
Qed.

Lemma run_deleteSecureValue (key : string) (w : World) :
  run (deleteSecureValue key) w =
  if keystoreUp w then (Ret true, with_vault (delete key) w)
  else (Ret false, w).
Proof.
  unfold deleteSecureValue. rewrite run_try_catch, run_bind. simpl.
  destruct (keystoreUp w); reflexivity.
Qed.

(** ** The request pipeline *)

Lemma with_message_same (e : ApiError) : with_message (message e) e = e.
Proof. destruct e; reflexivity. Qed.

(** The interceptor returns the error with its status and possibly another
    message; it touches the world only on a 401 with no refresh token in the
    store, where it clears the auth state. *)
Lemma run_errorInterceptor (e : ApiError) (w : World) :
  exists m : string,
    run (errorInterceptor e) w =
    (Ret (with_message m e),
     if ((status e =? 401)%Z && negb (truthy (refreshToken (store w))))%bool
     then with_store clearAuth w else w).
Proof.
  unfold errorInterceptor.
  destruct (status e =? 401)%Z.
  - unfold handleUnauthorizedError. simpl.
    destruct (truthy (refreshToken (store w))); simpl.
    + exists (message e). by rewrite with_message_same.
    + eexists. reflexivity.
  - simpl.
    repeat match goal with
           | |- context [if ?b then _ else _] => destruct b
           end; eexists; reflexivity.
Qed.

Lemma run_applyErrorInterceptors (e : ApiError) (w : World) :
  run (applyErrorInterceptors errorInterceptors e) w
  = run (errorInterceptor e) w.
Proof.
  unfold errorInterceptors. cbn [applyErrorInterceptors].
  rewrite run_bind. destruct (run (errorInterceptor e) w) as [[e' | x] w'];
    reflexivity.
Qed.

Lemma run_request {A : Type} (c : GatewayCall) (reply : Reply A) (w : World) :
  match reply with
  | Ok body => run (request c reply) w = (Ret body, with_call c w)
  | Fail st msg cd =>
      exists e : ApiError,
        status e = st /\
        run (request c reply) w =
        (Throw (ExnApi e),
         if ((st =? 401)%Z && negb (truthy (refreshToken (store w))))%bool
         then with_store clearAuth (with_call c w) else with_call c w)
  | Timeout =>
      exists e : ApiError,
        status e = 408%Z /\
        run (request c reply) w = (Throw (ExnApi e), with_call c w)
  | NetworkDown msg | Unparsable msg | NullError _ msg =>
      run (request c reply) w = (Throw (ExnError msg), with_call c w)
  end.
Proof.
  unfold request. destruct reply as [body | st msg cd | | msg | msg | st msg];
    [| | | reflexivity ..].
  - reflexivity.
  - rewrite run_bind, run_modify, run_yield, run_bind,
      run_applyErrorInterceptors.
    destruct (run_errorInterceptor
                {| status := st; message := str_or msg "An error occurred";
                   code := cd |} (with_call c w)) as [m ->].
    eexists. split; [| reflexivity]. reflexivity.
  - rewrite run_bind, run_modify, run_yield, run_bind,
      run_applyErrorInterceptors.
    destruct (run_errorInterceptor
                {| status := 408; message := "Request timeout";
                   code := Some "TIMEOUT" |} (with_call c w)) as [m ->].
    eexists. split; [| reflexivity]. reflexivity.
Qed.

Lemma clearAuth_idem (s : AuthState) : clearAuth (clearAuth s) = clearAuth s.
Proof. reflexivity. Qed.

(** The logout request never fails for its caller; on the way it may clear
    the auth state (a 401 answer with no refresh token in the store). *)
Lemma run_AuthService_logout (gw : Gateway) (w : World) :
  exists w' : World,
    run (AuthService.logout gw) w = (Ret tt, w') /\
    (w' = with_call CallLogout w \/
     w' = with_store clearAuth (with_call CallLogout w)).
Proof.
  unfold AuthService.logout. rewrite run_try_catch.
  pose proof (run_request CallLogout (gw_logout gw) w) as H.
  destruct (gw_logout gw) as [[] | st msg cd | | msg | msg | st msg].
  - rewrite H. eauto.
  - destruct H as (e & _ & ->). rewrite run_ret.
    destruct ((st =? 401)%Z && negb (truthy (refreshToken (store w))))%bool;
      eauto.
  - destruct H as (e & _ & ->). rewrite run_ret. eauto.
  - rewrite H, run_ret. eauto.
  - rewrite H, run_ret. eauto.
  - rewrite H, run_ret. eauto.
Qed.

(** ** Logout *)

(** What [logout] of the hook leaves: the auth state cleared, the three
    token entries deleted when the keystore answers, the request logged;
    every other Vault entry is as it was. *)
Lemma run_UseAuth_logout (gw : Gateway) (w : World) :
  run (UseAuth.logout gw) w =
  (Ret tt,
   {| store := clearAuth (store w);
      vault :=
        if keystoreUp w
        then delete TOKEN_EXPIRY_KEY
               (delete REFRESH_TOKEN_KEY (delete ACCESS_TOKEN_KEY (vault w)))
        else vault w;
      keystoreUp := keystoreUp w;
      clock := clock w;
      calls := CallLogout :: calls w;
      vm := vm w |}).
Proof.
  unfold UseAuth.logout.
  rewrite run_try_finally, run_try_catch.
  destruct (run_AuthService_logout gw w) as (w' & -> & Hw').
  destruct Hw' as [-> | ->]; destruct w as [s v [] ck cs m]; reflexivity.
Qed.

(** What [logout] of the view model leaves: the auth state cleared, the
    biometric entry deleted when the keystore answers; every other Vault
    entry, the three token entries among them, is as it was. *)
Lemma run_AuthViewModel_logout (gw : Gateway) (w : World) :
  run (AuthViewModel.logout gw) w =
  (Ret tt,
   {| store := clearAuth (store w);
      vault :=
        if keystoreUp w then delete BIOMETRIC_CREDENTIALS_KEY (vault w)
        else vault w;
      keystoreUp := keystoreUp w;
      clock := clock w;
      calls := CallLogout :: calls w;
      vm := {| vm_isLoading := false; vm_error := vm_error (vm w);
               vm_hasBiometrics := false |} |}).
Proof.
  unfold AuthViewModel.logout.
  rewrite run_bind. unfold AuthViewModel.setIsLoading at 1.
  rewrite run_modify, run_try_finally, run_try_catch.
  match goal with
  | |- context [run (AuthService.logout gw) ?w0] =>
      destruct (run_AuthService_logout gw w0) as (w' & -> & Hw')
  end.
  destruct Hw' as [-> | ->]; destruct w as [s v [] ck cs m]; reflexivity.
Qed.

(** ** Refresh *)

Lemma run_refreshSession_start (gw : Gateway) (w : World) :
  run (UseAuth.refreshSession gw) w =
  run (if negb (truthy (currentRefreshToken w)) then
         act clearAuth ;; mret false
       else
         try_catch
           (response ← AuthService.refreshSession gw
                         (default "" (currentRefreshToken w));
            setSecureValue ACCESS_TOKEN_KEY (r_accessToken response) ;;
            setSecureValue REFRESH_TOKEN_KEY (r_refreshToken response) ;;
            setSecureValue TOKEN_EXPIRY_KEY
              (toString (r_expiresAt response)) ;;
            act (setAuth (r_user response) (r_accessToken response)
                   (r_refreshToken response)) ;;
            mret true)
           (fun _ => UseAuth.logout gw ;; mret false)) w.
Proof.
  unfold UseAuth.refreshSession, currentRefreshToken.
  rewrite run_get, run_bind.
  destruct (truthy (refreshToken (store w))).
  - rewrite run_ret. reflexivity.
  - rewrite run_getSecureValue. reflexivity.
Qed.

Lemma run_refreshSession_none (gw : Gateway) (w : World) :
  truthy (currentRefreshToken w) = false ->
  run (UseAuth.refreshSession gw) w = (Ret false, with_store clearAuth w).
Proof.
  intros H. rewrite run_refreshSession_start, H. reflexivity.
Qed.

Lemma run_refreshSession_fail (gw : Gateway) (w : World) (tok : string) :
  currentRefreshToken w = Some tok ->
  tok <> "" ->
  (forall resp, gw_refresh gw tok <> Ok resp) ->
  run (UseAuth.refreshSession gw) w =
  (Ret false,
   {| store := clearAuth (store w);
      vault :=
        if keystoreUp w
        then delete TOKEN_EXPIRY_KEY
               (delete REFRESH_TOKEN_KEY (delete ACCESS_TOKEN_KEY (vault w)))
        else vault w;
      keystoreUp := keystoreUp w;
      clock := clock w;
      calls := CallLogout :: CallRefresh tok :: calls w;
      vm := vm w |}).
Proof.
  intros Hcur Htok Hfail. rewrite run_refreshSession_start, Hcur.
  assert (Ht : truthy (Some tok) = true).
  { simpl. destruct (String.eqb_spec tok ""); [contradiction | reflexivity]. }
  rewrite Ht. simpl negb. cbv iota. simpl default.
  rewrite run_try_catch, run_bind. unfold AuthService.refreshSession.
  pose proof (run_request (CallRefresh tok) (gw_refresh gw tok) w) as H.
  destruct (gw_refresh gw tok) as [resp | st msg cd | | msg | msg | st msg].
  - exfalso. eapply Hfail. reflexivity.
  - destruct H as (e & _ & ->). rewrite run_bind, run_UseAuth_logout.
    destruct ((st =? 401)%Z && negb (truthy (refreshToken (store w))))%bool;
      reflexivity.
  - destruct H as (e & _ & ->). rewrite run_bind, run_UseAuth_logout.
    reflexivity.
  - rewrite H, run_bind, run_UseAuth_logout. reflexivity.
  - rewrite H, run_bind, run_UseAuth_logout. reflexivity.
  - rewrite H, run_bind, run_UseAuth_logout. reflexivity.
Qed.

Lemma run_refreshSession_ok (gw : Gateway) (w : World) (tok : string)
    (resp : AuthResponse) :
  currentRefreshToken w = Some tok ->
  tok <> "" ->
  gw_refresh gw tok = Ok resp ->
  run (UseAuth.refreshSession gw) w =
  (Ret true,
   {| store := setAuth (r_user resp) (r_accessToken resp)
                 (r_refreshToken resp) (store w);
      vault :=
        if keystoreUp w
        then <[TOKEN_EXPIRY_KEY := toString (r_expiresAt resp)]>
               (<[REFRESH_TOKEN_KEY := r_refreshToken resp]>
                  (<[ACCESS_TOKEN_KEY := r_accessToken resp]> (vault w)))
        else vault w;
      keystoreUp := keystoreUp w;
      clock := clock w;
      calls := CallRefresh tok :: calls w;
      vm := vm w |}).
Proof.
  intros Hcur Htok Hok. rewrite run_refreshSession_start, Hcur.
  assert (Ht : truthy (Some tok) = true).
  { simpl. destruct (String.eqb_spec tok ""); [contradiction | reflexivity]. }
  rewrite Ht. simpl negb. cbv iota. simpl default.
  rewrite run_try_catch, run_bind. unfold AuthService.refreshSession.
  pose proof (run_request (CallRefresh tok) (gw_refresh gw tok) w) as H.
  rewrite Hok in *. rewrite H.
  destruct w as [s v [] ck cs m]; reflexivity.
Qed.

(** ** Numbers as strings: [parseInt] reads back what [toString] prints *)

Lemma read_digits_step (c : ascii) (s : string) (acc : option Z) (d : Z) :
  digit_of c = Some d ->
  read_digits (String c s) acc =
  read_digits s (Some (10 * default 0 acc + d)%Z).
Proof. intros H. simpl. rewrite H. reflexivity. Qed.

Ltac read_digit :=
  cbn [NilEmpty.string_of_uint];
  match goal with
  | |- context [read_digits (String ?c ?s) ?acc] =>
      let v := eval vm_compute in (digit_of c) in
      match v with
      | Some ?k => rewrite (read_digits_step c s acc k eq_refl)
      end
  end;
  try change (default 0%Z (Some ?x)) with x.

Lemma read_digits_acc (d : uint) (p : positive) :
  read_digits (NilEmpty.string_of_uint d) (Some (Z.pos p)) =
  Some (Z.pos (Pos.of_uint_acc d p)).
Proof.
  revert p. induction d as [| d IH | d IH | d IH | d IH | d IH | d IH
                            | d IH | d IH | d IH | d IH]; intros p;
    [reflexivity | ..];
    read_digit; cbn [Pos.of_uint_acc];
    match goal with
    | |- read_digits _ (Some ?z) = Some (Z.pos (Pos.of_uint_acc _ ?q)) =>
        replace z with (Z.pos q) by lia; apply IH
    end.
Qed.

Lemma read_digits_zero (d : uint) :
  read_digits (NilEmpty.string_of_uint d) (Some 0%Z) =
  Some (Z.of_N (Pos.of_uint d)).
Proof.
  induction d as [| d IH | d IH | d IH | d IH | d IH | d IH
                  | d IH | d IH | d IH | d IH];
    [reflexivity | ..];
    read_digit; cbn [Pos.of_uint]; [exact IH | ..];
    match goal with
    | |- read_digits _ (Some ?z) = Some (Z.of_N (N.pos (Pos.of_uint_acc _ ?q))) =>
        replace z with (Z.pos q) by lia; apply read_digits_acc
    end.
Qed.

Lemma read_digits_start (d : uint) :
  d <> Nil ->
  read_digits (NilEmpty.string_of_uint d) None =
  read_digits (NilEmpty.string_of_uint d) (Some 0%Z).
Proof.
  destruct d; [congruence | ..]; intros _;
    cbn [NilEmpty.string_of_uint]; reflexivity.
Qed.

Lemma skip_space_digits (d : uint) :
  skip_space (NilEmpty.string_of_uint d) = NilEmpty.string_of_uint d.
Proof. destruct d; reflexivity. Qed.

Lemma read_integer_digits (d : uint) :
  d <> Nil ->
  read_integer (NilEmpty.string_of_uint d) = Some (Z.of_N (Pos.of_uint d)).
Proof.
  intros Hd. unfold read_integer. rewrite skip_space_digits.
  rewrite <- read_digits_zero, <- read_digits_start by exact Hd.
  destruct d; [congruence | ..]; reflexivity.
Qed.

Lemma decimal_pos (p : positive) :
  decimal (Z.pos p) = NilEmpty.string_of_uint (Pos.to_uint p).
Proof.
  unfold decimal. simpl. unfold NilZero.string_of_uint.
  pose proof (Unsigned.to_uint_nonnil p) as H.
  destruct (Pos.to_uint p); [congruence | ..]; reflexivity.
Qed.

Lemma decimal_neg (p : positive) :
  decimal (Z.neg p) = String "-" (NilEmpty.string_of_uint (Pos.to_uint p)).
Proof.
  unfold decimal. simpl. unfold NilZero.string_of_uint.
  pose proof (Unsigned.to_uint_nonnil p) as H.
  destruct (Pos.to_uint p); [congruence | ..]; reflexivity.
Qed.

(** The digits of an integer, of any size, are read back as that integer. *)
Lemma read_integer_decimal (z : Z) : read_integer (decimal z) = Some z.
Proof.
  destruct z as [| p | p].
  - reflexivity.
  - rewrite decimal_pos, read_integer_digits by apply Unsigned.to_uint_nonnil.
    by rewrite Unsigned.of_to.
  - rewrite decimal_neg. unfold read_integer.
    change (skip_space (String "-" ?s)) with (String "-" s).
    cbv iota beta.
    pose proof (read_integer_digits (Pos.to_uint p)
                  (Unsigned.to_uint_nonnil p)) as H.
    rewrite Unsigned.of_to in H. unfold read_integer in H.
    rewrite skip_space_digits in H.
    destruct (Pos.to_uint p) eqn:E;
      [by apply Unsigned.to_uint_nonnil in E | ..];
      cbn [NilEmpty.string_of_uint] in *; simpl in H |- *;
      rewrite H; reflexivity.
Qed.

Lemma decimal_truthy (z : Z) : truthy (Some (decimal z)) = true.
Proof.
  destruct z as [| p | p]; [reflexivity | |].
  - rewrite decimal_pos. pose proof (Unsigned.to_uint_nonnil p) as H.
    destruct (Pos.to_uint p); [congruence | ..]; reflexivity.
  - rewrite decimal_neg. reflexivity.
Qed.

(** A safe integer is a double. *)
Lemma round_double_safe (z : Z) :
  isSafeInteger z = true -> round_double z = z.
Proof.
  unfold isSafeInteger, MAX_SAFE_INTEGER, round_double. intros H.
  apply Z.leb_le in H. cbv zeta.
  destruct (Z.ltb_spec (Z.abs z) (2 ^ 53)) as [_ | Hge]; [reflexivity | lia].
Qed.

Lemma toString_safe (z : Z) : isSafeInteger z = true -> toString z = decimal z.
Proof. unfold toString. intros ->. reflexivity. Qed.

(** On the safe integers [parseInt] reads back what [toString] prints. *)
Lemma parseInt_toString (z : Z) :
  isSafeInteger z = true -> parseInt (toString z) = Some z.
Proof.
  intros H. unfold parseInt.
  rewrite toString_safe, read_integer_decimal by exact H.
  simpl. by rewrite round_double_safe.
Qed.

Lemma toString_truthy (z : Z) :
  isSafeInteger z = true -> truthy (Some (toString z)) = true.
Proof. intros H. rewrite toString_safe by exact H. apply decimal_truthy. Qed.

(** Past the safe integers they part: a number is printed with the digits
    of its double, in exponent form from [1e21] on, and [parseInt] stops at
    the first character that is not a digit. *)
Example toString_large_samples :
  toString (2 ^ 53) = "9007199254740992" /\
  toString (2 ^ 53 + 1) = "9007199254740992" /\
  toString (2 ^ 53 + 3) = "9007199254740996" /\
  toString (2 ^ 64) = "18446744073709552000" /\
  toString (10 ^ 21) = "1e+21" /\
  toString (2 ^ 70) = "1.1805916207174113e+21" /\
  toString (- 10 ^ 23) = "-1e+23" /\
  toString (2 ^ 1024) = "Infinity" /\
  parseInt "9007199254740993" = Some 9007199254740992%Z /\
  parseInt (toString (10 ^ 21)) = Some 1%Z.
Proof. repeat split; vm_compute; reflexivity. Qed.

(** ** The refresh predicate *)

(** [shouldRefreshToken] only reads: the world it leaves is the one it was
    given, whatever the Vault holds and whether or not the keystore
    answers. *)
Lemma run_shouldRefreshToken (w : World) :
  run UseAuth.shouldRefreshToken w =
  (Ret match (if keystoreUp w then vault w !! TOKEN_EXPIRY_KEY else None) with
       | Some s =>
           if String.eqb s "" then false
           else match parseInt s with
                | Some e => (e - clock w <? REFRESH_THRESHOLD)%Z
                | None => false
                end
       | None => false
       end,
   w).
Proof.
  unfold UseAuth.shouldRefreshToken.
  rewrite run_try_catch, run_bind, run_getSecureValue.
  destruct (if keystoreUp w then vault w !! TOKEN_EXPIRY_KEY else None)
    as [s |]; simpl; [| reflexivity].
  destruct (String.eqb s ""); simpl; [reflexivity |].
  destruct (parseInt s); reflexivity.
Qed.

(** With the keystore out of reach the predicate answers false four
    minutes after the refresh was due; and an expiry of [1e21] ms, stored as
    ["1e+21"], is read back as 1 and reported as due. *)
Lemma shouldRefreshToken_counterexample :
  (vault locked_world !! TOKEN_EXPIRY_KEY = Some (toString 1700000000000) /\
   (1700000000000 - clock locked_world < 300000)%Z /\
   fst (run UseAuth.shouldRefreshToken locked_world) = Ret false) /\
  (vault far_expiry_world !! TOKEN_EXPIRY_KEY = Some (toString (10 ^ 21)) /\
   keystoreUp far_expiry_world = true /\
   ~ (10 ^ 21 - clock far_expiry_world < 300000)%Z /\
   fst (run UseAuth.shouldRefreshToken far_expiry_world) = Ret true).
Proof.
  split; [repeat split; reflexivity |].
  split; [vm_compute; reflexivity |]. split; [reflexivity |].
  split; [| vm_compute; reflexivity].
  intros H. vm_compute in H. discriminate H.
Qed.

(** C5 (amended).  When the keystore answers, with a safe integer
    [expiresAt] stored under [token_expiry] as its decimal string and the
    clock at the safe integer [now], [shouldRefreshToken] returns true
    exactly when [expiresAt - now < 300000] (five minutes in milliseconds):
    false at exactly five minutes, true one millisecond below.  When the
    keystore does not answer it returns false.  In every world it leaves the
    world, store and Vault included, as it found it. *)
Theorem shouldRefreshToken_threshold (w : World) (expiresAt : Z) :
  keystoreUp w = true ->
  isSafeInteger expiresAt = true ->
  isSafeInteger (clock w) = true ->
  vault w !! TOKEN_EXPIRY_KEY = Some (toString expiresAt) ->
  REFRESH_THRESHOLD = 300000%Z /\
  (exists b : bool,
     run UseAuth.shouldRefreshToken w = (Ret b, w) /\
     (b = true <-> (expiresAt - clock w < 300000)%Z) /\
     ((expiresAt - clock w = 300000)%Z -> b = false) /\
     ((expiresAt - clock w = 300000 - 1)%Z -> b = true)) /\
  (forall w' : World,
     keystoreUp w' = false ->
     fst (run UseAuth.shouldRefreshToken w') = Ret false) /\
  (forall w' : World, snd (run UseAuth.shouldRefreshToken w') = w').
Proof.
  intros Hup Hsafe _ Hexp. split; [reflexivity |]. split; [| split].
  - exists (expiresAt - clock w <? REFRESH_THRESHOLD)%Z.
    rewrite run_shouldRefreshToken, Hup, Hexp, parseInt_toString by exact Hsafe.
    pose proof (toString_truthy expiresAt Hsafe) as Ht. simpl in Ht.
    destruct (String.eqb (toString expiresAt) ""); [discriminate |].
    split; [reflexivity |].
    change REFRESH_THRESHOLD with 300000%Z.
    split; [apply Z.ltb_lt |].
    split; intros H; [apply Z.ltb_ge | apply Z.ltb_lt]; lia.
  - intros w' Hdown. rewrite run_shouldRefreshToken, Hdown. reflexivity.
  - intros w'. rewrite run_shouldRefreshToken. reflexivity.
Qed.

Lemma shouldRefreshToken_threshold_witness :
  keystoreUp sample_world = true /\
  isSafeInteger 1700000000000 = true /\
  isSafeInteger (clock sample_world) = true /\
  vault sample_world !! TOKEN_EXPIRY_KEY = Some (toString 1700000000000) /\
  fst (run UseAuth.shouldRefreshToken sample_world) = Ret false.
Proof.
  assert (Hv : vault sample_world !! TOKEN_EXPIRY_KEY
               = Some (toString 1700000000000)) by reflexivity.
  split; [reflexivity |]. split; [reflexivity |]. split; [reflexivity |].
  split; [exact Hv |].
  destruct (shouldRefreshToken_threshold sample_world 1700000000000
              eq_refl eq_refl eq_refl Hv) as (_ & (b & Hrun & Hiff & _) & _).
  rewrite Hrun. simpl. f_equal.
  destruct b; [| reflexivity].
  destruct Hiff as [Hlt _]. specialize (Hlt eq_refl). simpl in Hlt. lia.
Defined.

(** ** Logout and refresh failure against the Vault *)

(** Logging in through the view model with "remember me" stores the
    biometric bundle; logging in through the hook stores the three token
    entries. *)
Lemma remember_me_stores_bundle :
  vault (snd (run (AuthViewModel.login accepting_gateway
                     "test@example.com" "secret" true) fresh_world))
    !! BIOMETRIC_CREDENTIALS_KEY
  = Some (stringify_credentials "test@example.com" "new-refresh-token").
Proof. reflexivity. Qed.

Lemma hook_login_stores_tokens :
  let w := snd (run (UseAuth.login accepting_gateway
                       "test@example.com" "secret") fresh_world) in
  vault w !! ACCESS_TOKEN_KEY = Some "new-access-token" /\
  vault w !! REFRESH_TOKEN_KEY = Some "new-refresh-token" /\
  vault w !! TOKEN_EXPIRY_KEY = Some "1700003600000" /\
  isAuthenticated (store w) = true.
Proof. repeat split; reflexivity. Qed.

(** C1.  Whether the remote logout call succeeds or fails, [logout] leaves
    [isAuthenticated] false and [user], [accessToken], [refreshToken] null.
    The Vault is not emptied: [logout] of the hook deletes the three token
    entries and leaves [biometric_credentials] as it was, and [logout] of
    the view model deletes [biometric_credentials] and leaves the three
    token entries as they were.  In a logged-in world that holds all four
    entries, the bundle, respectively the tokens, are still there. *)
Theorem logout_leaves_vault_entries (gw : Gateway) (w : World) :
  let w1 := snd (run (UseAuth.logout gw) w) in
  let w2 := snd (run (AuthViewModel.logout gw) w) in
  let s1 := snd (run (UseAuth.logout gw) sample_world) in
  let s2 := snd (run (AuthViewModel.logout gw) sample_world) in
  (cleared (store w1) /\ cleared (store w2)) /\
  vault w1 !! BIOMETRIC_CREDENTIALS_KEY
    = vault w !! BIOMETRIC_CREDENTIALS_KEY /\
  (vault w2 !! ACCESS_TOKEN_KEY = vault w !! ACCESS_TOKEN_KEY /\
   vault w2 !! REFRESH_TOKEN_KEY = vault w !! REFRESH_TOKEN_KEY /\
   vault w2 !! TOKEN_EXPIRY_KEY = vault w !! TOKEN_EXPIRY_KEY) /\
  (isAuthenticated (store s1) = false /\
   vault s1 !! ACCESS_TOKEN_KEY = None /\
   vault s1 !! REFRESH_TOKEN_KEY = None /\
   vault s1 !! TOKEN_EXPIRY_KEY = None /\
   vault s1 !! BIOMETRIC_CREDENTIALS_KEY =
     Some (stringify_credentials "test@example.com" "refresh-token")) /\
  (isAuthenticated (store s2) = false /\
   vault s2 !! BIOMETRIC_CREDENTIALS_KEY = None /\
   vault s2 !! ACCESS_TOKEN_KEY = Some "access-token" /\
   vault s2 !! REFRESH_TOKEN_KEY = Some "refresh-token" /\
   vault s2 !! TOKEN_EXPIRY_KEY = Some "1700000000000").
Proof.
  cbv zeta. rewrite !run_UseAuth_logout, !run_AuthViewModel_logout.
  cbn [fst snd store vault].
  split; [split; repeat split |].
  split; [| split].
  - destruct (keystoreUp w); [| reflexivity].
    rewrite !lookup_delete_ne by discriminate. reflexivity.
  - destruct (keystoreUp w); [| done].
    rewrite !lookup_delete_ne by discriminate. done.
  - repeat split; reflexivity.
Qed.

(** C2.  When the Identity Gateway rejects the refresh, [refreshSession]
    returns false after one refresh request (no retry) and the forced
    logout: [isAuthenticated] is false and the [access_token],
    [refresh_token] and [token_expiry] entries are gone, but the
    [biometric_credentials] entry is still in the Vault. *)
Theorem refresh_failure_leaves_biometric :
  let out := run (UseAuth.refreshSession rejecting_gateway) sample_world in
  fst out = Ret false /\
  isAuthenticated (store (snd out)) = false /\
  accessToken (store (snd out)) = None /\
  refreshToken (store (snd out)) = None /\
  calls (snd out) = [CallLogout; CallRefresh "refresh-token"] /\
  vault (snd out) !! ACCESS_TOKEN_KEY = None /\
  vault (snd out) !! REFRESH_TOKEN_KEY = None /\
  vault (snd out) !! TOKEN_EXPIRY_KEY = None /\
  vault (snd out) !! BIOMETRIC_CREDENTIALS_KEY =
    Some (stringify_credentials "test@example.com" "refresh-token").
Proof.
  rewrite (run_refreshSession_fail rejecting_gateway sample_world
             "refresh-token"); [| reflexivity | discriminate | discriminate].
  repeat split; reflexivity.
Qed.

(** C10.  With no refresh token in the store and none under the Vault key
    [refresh_token] (null or empty in either place), [refreshSession] clears
    the auth state and returns false, and sends nothing to the Identity
    Gateway: the world it leaves differs from the one it was given by
    [clearAuth] only. *)
Theorem refresh_without_token (gw : Gateway) (w : World) :
  truthy (refreshToken (store w)) = false ->
  truthy (vault w !! REFRESH_TOKEN_KEY) = false ->
  let out := run (UseAuth.refreshSession gw) w in
  fst out = Ret false /\
  snd out = with_store clearAuth w /\
  isAuthenticated (store (snd out)) = false /\
  accessToken (store (snd out)) = None /\
  refreshToken (store (snd out)) = None /\
  calls (snd out) = calls w /\
  vault (snd out) = vault w.
Proof.
  intros Hs Hv. cbv zeta.
  rewrite run_refreshSession_none.
  - repeat split; reflexivity.
  - unfold currentRefreshToken. rewrite Hs.
    destruct (keystoreUp w); [exact Hv | reflexivity].
Qed.

Lemma refresh_without_token_witness :
  truthy (refreshToken (store fresh_world)) = false /\
  truthy (vault fresh_world !! REFRESH_TOKEN_KEY) = false /\
  fst (run (UseAuth.refreshSession accepting_gateway) fresh_world)
    = Ret false /\
  calls (snd (run (UseAuth.refreshSession accepting_gateway) fresh_world))
    = [].
Proof.
  split; [reflexivity |]. split; [reflexivity |].
  destruct (refresh_without_token accepting_gateway fresh_world
              eq_refl eq_refl) as (Hr & _ & _ & _ & _ & Hc & _).
  split; [exact Hr | exact Hc].
Defined.

(** ** Idempotence *)

Lemma delete_tokens_idem (v : gmap string string) :
  let cleared :=
    delete TOKEN_EXPIRY_KEY
      (delete REFRESH_TOKEN_KEY (delete ACCESS_TOKEN_KEY v)) in
  delete TOKEN_EXPIRY_KEY
    (delete REFRESH_TOKEN_KEY (delete ACCESS_TOKEN_KEY cleared)) = cleared.
Proof.
  apply map_eq. intros k. rewrite !lookup_delete.
  repeat case_decide; reflexivity.
Qed.

(** C9.  [clearAuth] is idempotent: applied to a session it has already
    cleared it changes nothing (and it cannot fail); and a second [logout]
    right after a first one, of the hook or of the view model, whatever the
    Identity Gateway answers to either, leaves the session and the Vault
    (and the view model's state) as the first one left them. *)
Theorem clear_and_logout_idempotent
    (s : AuthState) (gw1 gw2 : Gateway) (w : World) :
  clearAuth (clearAuth s) = clearAuth s /\
  (let w1 := snd (run (UseAuth.logout gw1) w) in
   let out2 := run (UseAuth.logout gw2) w1 in
   fst out2 = Ret tt /\
   store (snd out2) = store w1 /\ vault (snd out2) = vault w1) /\
  (let w1 := snd (run (AuthViewModel.logout gw1) w) in
   let out2 := run (AuthViewModel.logout gw2) w1 in
   fst out2 = Ret tt /\
   store (snd out2) = store w1 /\ vault (snd out2) = vault w1 /\
   vm (snd out2) = vm w1).
Proof.
  split; [reflexivity |]. split; cbv zeta.
  - rewrite !run_UseAuth_logout. cbn [fst snd store vault keystoreUp].
    split; [reflexivity |]. split; [reflexivity |].
    destruct (keystoreUp w); [apply delete_tokens_idem | reflexivity].
  - rewrite !run_AuthViewModel_logout.
    cbn [fst snd store vault keystoreUp vm vm_error].
    split; [reflexivity |]. split; [reflexivity |].
    split; [| reflexivity].
    destruct (keystoreUp w); [apply delete_delete_eq | reflexivity].
Qed.

(** ** Classification of failed responses *)

(** What a request leaves in the store: what it found, or the cleared auth
    state, the latter only for a 401 answer met with no refresh token. *)
Lemma request_store {A : Type} (c : GatewayCall) (reply : Reply A)
    (w : World) :
  vault (snd (run (request c reply) w)) = vault w /\
  vm (snd (run (request c reply) w)) = vm w /\
  keystoreUp (snd (run (request c reply) w)) = keystoreUp w /\
  calls (snd (run (request c reply) w)) = c :: calls w /\
  (store (snd (run (request c reply) w)) = store w \/
   ((exists msg cd, reply = Fail 401 msg cd) /\
    truthy (refreshToken (store w)) = false /\
    store (snd (run (request c reply) w)) = clearAuth (store w))).
Proof.
  pose proof (run_request c reply w) as H.
  destruct reply as [body | st msg cd | | msg | msg | st msg].
  - rewrite H. simpl. repeat split; auto.
  - destruct H as (e & _ & ->).
    destruct (Z.eqb_spec st 401) as [-> | Hne];
      destruct (truthy (refreshToken (store w))) eqn:Ht; simpl;
      repeat split; auto.
    right. eauto.
  - destruct H as (e & _ & ->). simpl. repeat split; auto.
  - rewrite H. simpl. repeat split; auto.
  - rewrite H. simpl. repeat split; auto.
  - rewrite H. simpl. repeat split; auto.
Qed.

(** Before any refresh attempt, a 401 met with no refresh token in the
    store wipes the profile that [setUser] had put there. *)
Lemma classification_clears_profile_counterexample :
  calls profile_only_world = [] /\
  user (store profile_only_world) = Some sample_user /\
  user (store (snd (run (errorInterceptor unauthorized) profile_only_world)))
    = None /\
  store (snd (run (errorInterceptor unauthorized) profile_only_world))
    <> store profile_only_world.
Proof. repeat split; try reflexivity. discriminate. Qed.

(** C8 (amended).  Classifying a failed response returns the error with its
    status and leaves the world, the Session included, unchanged for every
    status other than 401 (timeout 408, 429, 5xx, 403, 404, 422, any other)
    and for a 401 when the store holds a non-empty refresh token; on a 401
    with no refresh token in the store it calls [clearAuth], and that is the
    only case in which it changes anything.  So classification never logs
    out a session that holds a refresh token. *)
Theorem classification_session_effect (e : ApiError) (w : World) :
  let out := run (errorInterceptor e) w in
  (exists e', fst out = Ret e' /\ status e' = status e) /\
  (status e <> 401%Z -> snd out = w) /\
  (truthy (refreshToken (store w)) = true -> snd out = w) /\
  (status e = 401%Z -> truthy (refreshToken (store w)) = false ->
   snd out = with_store clearAuth w) /\
  (isAuthenticated (store w) = true ->
   truthy (refreshToken (store w)) = true ->
   isAuthenticated (store (snd out)) = true) /\
  (snd out <> w ->
   status e = 401%Z /\ truthy (refreshToken (store w)) = false).
Proof.
  cbv zeta. destruct (run_errorInterceptor e w) as [m ->]. simpl.
  split; [eexists; split; reflexivity |].
  split; [| split; [| split; [| split]]].
  - intros Hne. destruct (Z.eqb_spec (status e) 401); [contradiction | done].
  - intros ->. by rewrite andb_false_r.
  - intros -> ->. reflexivity.
  - intros Ha ->. by rewrite andb_false_r.
  - destruct (Z.eqb_spec (status e) 401) as [He | He];
      destruct (truthy (refreshToken (store w))); simpl; intros Hw;
      try (by destruct Hw). by split.
Qed.

Lemma classification_session_effect_witness :
  snd (run (errorInterceptor rate_limited) profile_only_world)
    = profile_only_world /\
  snd (run (errorInterceptor unauthorized) sample_world) = sample_world /\
  snd (run (errorInterceptor unauthorized) profile_only_world)
    = with_store clearAuth profile_only_world.
Proof.
  split; [| split].
  - destruct (classification_session_effect rate_limited profile_only_world)
      as (_ & Hne & _).
    apply Hne. discriminate.
  - destruct (classification_session_effect unauthorized sample_world)
      as (_ & _ & Htok & _).
    apply Htok. reflexivity.
  - destruct (classification_session_effect unauthorized profile_only_world)
      as (_ & _ & _ & Hclr & _).
    apply Hclr; reflexivity.
Defined.

(** ** Login failure *)







(** ** A logout racing a refresh *)

(** The refresh of a session that holds a token sends its request and is
    suspended; [pending] is what it will do with the answer.  With a
    successful answer it writes the new tokens, in whatever world it is
    resumed: nothing in it looks at the session it comes back to. *)
Lemma advance_refreshSession (gw : Gateway) (w : World) (tok : string) :
  refreshToken (store w) = Some tok ->
  tok <> "" ->
  exists pending : Task bool,
    advance (UseAuth.refreshSession gw) w
    = (pending, with_call (CallRefresh tok) w) /\
    forall resp, gw_refresh gw tok = Ok resp ->
      finished pending = false /\
      Resuming resp pending /\
      forall w2 : World,
        run pending w2 =
        (Ret true,
         {| store := setAuth (r_user resp) (r_accessToken resp)
                       (r_refreshToken resp) (store w2);
            vault :=
              if keystoreUp w2
              then <[TOKEN_EXPIRY_KEY := toString (r_expiresAt resp)]>
                     (<[REFRESH_TOKEN_KEY := r_refreshToken resp]>
                        (<[ACCESS_TOKEN_KEY := r_accessToken resp]>
                           (vault w2)))
              else vault w2;
            keystoreUp := keystoreUp w2;
            clock := clock w2;
            calls := calls w2;
            vm := vm w2 |}).
Proof.
  intros Hs Htok.
  assert (Ht : String.eqb tok "" = false).
  { destruct (String.eqb_spec tok ""); [contradiction | reflexivity]. }
  unfold UseAuth.refreshSession, AuthService.refreshSession, request.
  cbn [advance]. rewrite Hs. cbn [truthy]. rewrite Ht.
  cbn. rewrite Ht. cbn.
  eexists. split; [reflexivity |].
  intros resp ->. split; [reflexivity |]. split.
  - repeat (constructor;
            [ intros [? ? [] ? ? ?]; split; reflexivity
            | intros [? ? [] ? ? ?]; cbn; try discriminate; intros _ ]).
  - intros [? ? [] ? ? ?]; reflexivity.
Qed.

Lemma interleave_finished {A B : Type} (sched : list bool)
    (t1 : Task A) (t2 : Task B) (w : World) :
  finished t1 = true ->
  finished (fst (fst (interleave sched t1 t2 w))) = true.
Proof.
  revert t2 w. induction sched as [| [] sched IH]; intros t2 w Hf.
  - exact Hf.
  - destruct t1; try discriminate Hf. simpl. apply IH. reflexivity.
  - simpl. destruct (advance t2 w) as [t2' w']. apply IH, Hf.
Qed.

(** However the other operation is scheduled in between, what is left of
    the refresh still applies its response. *)
Lemma interleave_resuming {B : Type} (resp : AuthResponse)
    (sched : list bool) (t1 : Task bool) (t2 : Task B) (w : World) :
  Resuming resp t1 ->
  finished (fst (fst (interleave sched t1 t2 w))) = false ->
  Resuming resp (fst (fst (interleave sched t1 t2 w))).
Proof.
  revert t1 t2 w. induction sched as [| [] sched IH]; intros t1 t2 w Hr Hf.
  - exact Hr.
  - simpl in *. inversion Hr as [t Hrun Hnext]; subst.
    specialize (Hnext w).
    destruct (advance t1 w) as [t1' w'] eqn:E. simpl in Hnext.
    destruct (finished t1') eqn:Ef.
    + rewrite interleave_finished in Hf by exact Ef. discriminate Hf.
    + apply IH; [apply Hnext; reflexivity | exact Hf].
  - simpl in *. destruct (advance t2 w) as [t2' w']. apply IH; assumption.
Qed.

(** The race on a logged-in session: the refresh request is sent, logout
    runs from start to end, then the successful response is applied; also
    as an explicit schedule of the two operations. *)
Lemma logout_loses_race_counterexample :
  let started :=
    advance (UseAuth.refreshSession accepting_gateway) sample_world in
  let after_logout := run (UseAuth.logout accepting_gateway) (snd started) in
  let final := run (fst started) (snd after_logout) in
  let scheduled :=
    interleave
      [true; false; false; false; false; false; true; true; true; true]
      (UseAuth.refreshSession accepting_gateway)
      (UseAuth.logout accepting_gateway) sample_world in
  (calls (snd started) = [CallRefresh "refresh-token"] /\
   finished (fst started) = false /\
   isAuthenticated (store (snd after_logout)) = false /\
   fst final = Ret true /\
   isAuthenticated (store (snd final)) = true) /\
  (finished (fst (fst scheduled)) = true /\
   finished (snd (fst scheduled)) = true /\
   isAuthenticated (store (snd scheduled)) = true /\
   isAuthenticated (store (snd scheduled)) <> false).
Proof. cbv zeta. repeat split; try reflexivity. discriminate. Qed.

(** C3 (amended).  If [refreshSession] is in flight when [logout] is
    invoked and the refresh then resolves successfully, the late result is
    applied: in the interleaving where logout runs from start to end before
    the response comes back, and in every schedule in which logout has
    completed while the refresh has not, the refresh ends by returning true
    with [isAuthenticated] true and the user and tokens of the response in
    the store (and, in the first case and when the keystore answers, in the
    Vault).  The code has no check that discards a stale result. *)
Theorem late_refresh_reauthenticates
    (gw gwl : Gateway) (w : World) (tok : string) (resp : AuthResponse) :
  refreshToken (store w) = Some tok ->
  tok <> "" ->
  gw_refresh gw tok = Ok resp ->
  let started := advance (UseAuth.refreshSession gw) w in
  (let after_logout := run (UseAuth.logout gwl) (snd started) in
   let final := run (fst started) (snd after_logout) in
   calls (snd started) = CallRefresh tok :: calls w /\
   finished (fst started) = false /\
   fst after_logout = Ret tt /\
   isAuthenticated (store (snd after_logout)) = false /\
   fst final = Ret true /\
   isAuthenticated (store (snd final)) = true /\
   user (store (snd final)) = Some (r_user resp) /\
   accessToken (store (snd final)) = Some (r_accessToken resp) /\
   refreshToken (store (snd final)) = Some (r_refreshToken resp) /\
   (keystoreUp w = true ->
    vault (snd final) !! ACCESS_TOKEN_KEY = Some (r_accessToken resp) /\
    vault (snd final) !! REFRESH_TOKEN_KEY = Some (r_refreshToken resp) /\
    vault (snd final) !! TOKEN_EXPIRY_KEY
      = Some (toString (r_expiresAt resp)))) /\
  (forall sched : list bool,
     let scheduled :=
       interleave sched (fst started) (UseAuth.logout gwl) (snd started) in
     let rest := fst (fst scheduled) in
     finished (snd (fst scheduled)) = true ->
     finished rest = false ->
     fst (run rest (snd scheduled)) = Ret true /\
     isAuthenticated (store (snd (run rest (snd scheduled)))) = true /\
     user (store (snd (run rest (snd scheduled)))) = Some (r_user resp) /\
     accessToken (store (snd (run rest (snd scheduled))))
       = Some (r_accessToken resp) /\
     refreshToken (store (snd (run rest (snd scheduled))))
       = Some (r_refreshToken resp)).
Proof.
  intros Hs Htok Hok. cbv zeta.
  destruct (advance_refreshSession gw w tok Hs Htok)
    as (pending & -> & Hpending).
  destruct (Hpending resp Hok) as (Hfin & Hres & Hrun).
  cbn [fst snd]. split.
  - rewrite run_UseAuth_logout, Hrun. cbn [fst snd store vault keystoreUp].
    repeat split; try reflexivity; try exact Hfin.
    all: cbn [with_call keystoreUp vault];
      match goal with H : keystoreUp _ = true |- _ => rewrite H end;
      by simplify_map_eq.
  - intros sched _ Hrest.
    pose proof (interleave_resuming resp sched pending (UseAuth.logout gwl)
                  (with_call (CallRefresh tok) w) Hres Hrest) as Hr.
    inversion Hr as [t Hend _]; subst.
    destruct (Hend (snd (interleave sched pending (UseAuth.logout gwl)
                           (with_call (CallRefresh tok) w)))) as [H1 H2].
    rewrite H1, H2. repeat split; reflexivity.
Qed.

Lemma late_refresh_reauthenticates_witness :
  let started :=
    advance (UseAuth.refreshSession accepting_gateway) sample_world in
  let scheduled :=
    interleave [false; false; false; false; false]
      (fst started) (UseAuth.logout rejecting_gateway) (snd started) in
  refreshToken (store sample_world) = Some "refresh-token" /\
  gw_refresh accepting_gateway "refresh-token" = Ok sample_response /\
  isAuthenticated
    (store
       (snd (run (fst started)
               (snd (run (UseAuth.logout rejecting_gateway) (snd started))))))
  = true /\
  finished (snd (fst scheduled)) = true /\
  finished (fst (fst scheduled)) = false /\
  isAuthenticated
    (store (snd (run (fst (fst scheduled)) (snd scheduled)))) = true.
Proof.
  cbv zeta.
  split; [reflexivity |]. split; [reflexivity |].
  assert (Hne : "refresh-token" <> "") by discriminate.
  destruct (late_refresh_reauthenticates accepting_gateway rejecting_gateway
              sample_world "refresh-token" sample_response
              eq_refl Hne eq_refl)
    as [(_ & _ & _ & _ & _ & Hauth & _) Hsched].
  split; [exact Hauth |].
  split; [reflexivity |]. split; [reflexivity |].
  destruct (Hsched [false; false; false; false; false] eq_refl eq_refl)
    as (_ & Hauth' & _).
  exact Hauth'.
Defined.

(** * Further properties of the session code *)

(** ** Startup reconciliation of the store *)

(** X1.  [initialize] runs once: a second call changes nothing.  It never
    touches [user], the tokens or [error]; and from a state that is not yet
    initialized it establishes the session invariant, whatever the state
    was (a persisted [isAuthenticated] without tokens is turned off). *)
Theorem initialize_settles (s : AuthState) :
  initialize (initialize s) = initialize s /\
  (user (initialize s) = user s /\
   accessToken (initialize s) = accessToken s /\
   refreshToken (initialize s) = refreshToken s /\
   error (initialize s) = error s) /\
  (isInitialized s = false -> session_inv (initialize s)).
Proof.
  unfold initialize.
  destruct (isInitialized s) eqn:Hi.
  - rewrite Hi. split; [reflexivity |]. split; [repeat split |].
    intros Hf. discriminate Hf.
  - destruct (truthy (accessToken s)) eqn:Ha;
      destruct (truthy (refreshToken s)) eqn:Hr; simpl;
      (split; [reflexivity |]); (split; [repeat split |]);
      intros _; unfold session_inv; simpl; try discriminate.
    intros _. split; apply truthy_is_Some; assumption.
Qed.

(** The stale state does not satisfy the invariant; [initialize] makes it
    do so. *)
Lemma initialize_settles_witness :
  isInitialized stale_state = false /\
  ~ session_inv stale_state /\
  session_inv (initialize stale_state) /\
  isAuthenticated (initialize stale_state) = false.
Proof.
  split; [reflexivity |]. split; [| split; [| reflexivity]].
  - intros H. destruct (H eq_refl) as [[x Hx] _]. discriminate Hx.
  - destruct (initialize_settles stale_state) as (_ & _ & Hinv).
    exact (Hinv eq_refl).
Defined.

(** ** The Vault wrapper *)

(** X2.  With the keystore available, a value written with
    [setSecureValue] is what [getSecureValue] reads back, other keys read
    as before, and after [deleteSecureValue] the key reads as [null]; each
    call reports success. *)
Theorem secure_value_round_trip (key value other : string) (w : World) :
  keystoreUp w = true ->
  other <> key ->
  let w1 := snd (run (setSecureValue key value) w) in
  let w2 := snd (run (deleteSecureValue key) w1) in
  fst (run (setSecureValue key value) w) = Ret true /\
  run (getSecureValue key) w1 = (Ret (Some value), w1) /\
  fst (run (getSecureValue other) w1) = fst (run (getSecureValue other) w) /\
  fst (run (deleteSecureValue key) w1) = Ret true /\
  fst (run (getSecureValue key) w2) = Ret None /\
  fst (run (getSecureValue other) w2) = fst (run (getSecureValue other) w).
Proof.
  intros Hup Hne. cbv zeta.
  rewrite run_setSecureValue, Hup. cbn [fst snd].
  rewrite run_deleteSecureValue. cbn [keystoreUp with_vault].
  rewrite Hup. cbn [fst snd].
  rewrite !run_getSecureValue. cbn [keystoreUp with_vault vault fst].
  rewrite Hup.
  repeat split.
  - by rewrite lookup_insert_eq.
  - by rewrite lookup_insert_ne.
  - by rewrite lookup_delete_eq.
  - by rewrite lookup_delete_ne, lookup_insert_ne.
Qed.

Lemma secure_value_round_trip_witness :
  run (getSecureValue TOKEN_EXPIRY_KEY)
    (snd (run (setSecureValue TOKEN_EXPIRY_KEY "1700003600000") fresh_world))
  = (Ret (Some "1700003600000"),
     snd (run (setSecureValue TOKEN_EXPIRY_KEY "1700003600000") fresh_world)).
Proof.
  assert (Hne : ACCESS_TOKEN_KEY <> TOKEN_EXPIRY_KEY) by discriminate.
  destruct (secure_value_round_trip TOKEN_EXPIRY_KEY "1700003600000"
              ACCESS_TOKEN_KEY fresh_world eq_refl Hne) as (_ & H & _).
  exact H.
Defined.

(** X3.  With the keystore unavailable no function of the wrapper throws:
    [getSecureValue] answers [null] even for a key that is stored,
    [setSecureValue] and [deleteSecureValue] answer false, and nothing is
    changed. *)
Theorem secure_storage_swallows_failures (key value : string) (w : World) :
  keystoreUp w = false ->
  run (getSecureValue key) w = (Ret None, w) /\
  run (setSecureValue key value) w = (Ret false, w) /\
  run (deleteSecureValue key) w = (Ret false, w).
Proof.
  intros Hdown.
  rewrite run_getSecureValue, run_setSecureValue, run_deleteSecureValue, Hdown.
  repeat split.
Qed.

Lemma secure_storage_swallows_failures_witness :
  let w := with_vault (fun v => v) sample_world in
  let locked :=
    {| store := store w; vault := vault w; keystoreUp := false;
       clock := clock w; calls := calls w; vm := vm w |} in
  vault locked !! ACCESS_TOKEN_KEY = Some "access-token" /\
  run (getSecureValue ACCESS_TOKEN_KEY) locked = (Ret None, locked).
Proof.
  cbv zeta. split; [reflexivity |].
  eapply secure_storage_swallows_failures with (value := ""). reflexivity.
Defined.

(** ** The request pipeline: what a caller can catch *)

Lemma str_or_nonempty (a b : string) : b <> "" -> str_or a b <> "".
Proof.
  intros Hb. unfold str_or.
  destruct (String.eqb_spec a ""); [exact Hb | assumption].
Qed.

Lemma errorInterceptor_message (e : ApiError) (w : World) :
  message e <> "" ->
  exists e' w',
    run (errorInterceptor e) w = (Ret e', w') /\
    message e' <> "" /\ status e' = status e /\ code e' = code e.
Proof.
  intros Hm. unfold errorInterceptor.
  destruct (status e =? 401)%Z.
  - unfold handleUnauthorizedError. simpl.
    destruct (truthy (refreshToken (store w))); simpl;
      eexists _, _; (split; [reflexivity |]); simpl; repeat split; try done.
  - repeat match goal with
           | |- context [if ?b then _ else _] => destruct b
           end;
      eexists _, _; (split; [reflexivity |]); simpl; repeat split;
      try done; apply str_or_nonempty; discriminate.
Qed.

(** X4.  What a caller of [request] can get.  The value returned is the
    body of a response with [ok] set.  An [ApiError] thrown always carries
    a message that is not empty, the code of the response, and the status
    of the response, or status 408 and code [TIMEOUT] when the request
    timed out.  An [Error] is thrown, and no [ApiError], when [fetch] is
    rejected, when the body of an [ok] response does not parse, and when
    the body of an error response is [null]; then, as when a value is
    returned, nothing is changed but the log of requests. *)
Theorem request_outcome {A : Type} (c : GatewayCall) (reply : Reply A)
    (w : World) :
  match fst (run (request c reply) w) with
  | Ret body =>
      reply = Ok body /\ snd (run (request c reply) w) = with_call c w
  | Throw (ExnApi e) =>
      message e <> "" /\
      ((exists msg cd, reply = Fail (status e) msg cd /\ code e = cd) \/
       (reply = Timeout /\ status e = 408%Z /\ code e = Some "TIMEOUT"))
  | Throw (ExnError msg) =>
      (reply = NetworkDown msg \/ reply = Unparsable msg \/
       exists st, reply = NullError st msg) /\
      snd (run (request c reply) w) = with_call c w
  end.
Proof.
  unfold request. rewrite run_bind, run_modify, run_yield.
  destruct reply as [body | st msg cd | | msg | msg | st msg].
  - split; reflexivity.
  - rewrite run_bind, run_applyErrorInterceptors.
    destruct (errorInterceptor_message
                {| status := st; message := str_or msg "An error occurred";
                   code := cd |} (with_call c w))
      as (e' & w' & -> & Hm & Hs & Hc).
    { apply str_or_nonempty. discriminate. }
    simpl in *. split; [exact Hm |]. left. subst. eauto.
  - rewrite run_bind, run_applyErrorInterceptors.
    destruct (errorInterceptor_message
                {| status := 408; message := "Request timeout";
                   code := Some "TIMEOUT" |} (with_call c w))
      as (e' & w' & -> & Hm & Hs & Hc).
    { discriminate. }
    simpl in *. split; [exact Hm |]. right. auto.
  - split; [left |]; reflexivity.
  - split; [right; left |]; reflexivity.
  - split; [right; right; eexists |]; reflexivity.
Qed.

(** X5.  [AuthService.logout] never fails for its caller: whatever the
    Identity Gateway answers, it returns normally after exactly one logout
    request, and it touches neither the Vault nor the tokens of a session
    that holds a refresh token. *)
Theorem service_logout_never_throws (gw : Gateway) (w : World) :
  let out := run (AuthService.logout gw) w in
  fst out = Ret tt /\
  calls (snd out) = CallLogout :: calls w /\
  vault (snd out) = vault w /\
  (truthy (refreshToken (store w)) = true -> store (snd out) = store w).
Proof.
  cbv zeta. unfold AuthService.logout. rewrite run_try_catch.
  pose proof (run_request CallLogout (gw_logout gw) w) as H.
  destruct (gw_logout gw) as [[] | st msg cd | | msg | msg | st msg].
  - rewrite H. repeat split.
  - destruct H as (e & _ & ->). rewrite run_ret.
    destruct (truthy (refreshToken (store w))) eqn:Ht.
    + rewrite andb_false_r. repeat split.
    + destruct (st =? 401)%Z; repeat split; intros; discriminate.
  - destruct H as (e & _ & ->). rewrite run_ret. repeat split.
  - rewrite H, run_ret. repeat split.
  - rewrite H, run_ret. repeat split.
  - rewrite H, run_ret. repeat split.
Qed.

(** ** Successful login and refresh *)

Lemma run_UseAuth_login_ok (gw : Gateway) (email password : string)
    (w : World) (resp : AuthResponse) :
  gw_login gw email password = Ok resp ->
  run (UseAuth.login gw email password) w =
  (Ret tt,
   {| store := setAuth (r_user resp) (r_accessToken resp)
                 (r_refreshToken resp) (store w);
      vault :=
        if keystoreUp w
        then <[TOKEN_EXPIRY_KEY := toString (r_expiresAt resp)]>
               (<[REFRESH_TOKEN_KEY := r_refreshToken resp]>
                  (<[ACCESS_TOKEN_KEY := r_accessToken resp]> (vault w)))
        else vault w;
      keystoreUp := keystoreUp w;
      clock := clock w;
      calls := CallLogin email password :: calls w;
      vm := vm w |}).
Proof.
  intros Hok. unfold UseAuth.login, AuthService.login.
  rewrite run_bind, run_act, run_try_finally, run_bind.
  pose proof (run_request (CallLogin email password)
                (gw_login gw email password)
                (with_store (setLoading true) w)) as H.
  rewrite Hok in *. rewrite H.
  destruct w as [s v [] ck cs m]; reflexivity.
Qed.

(** X6.  When the Identity Gateway accepts the credentials, [login] of the
    hook returns normally after one login request, the store holds the user
    and tokens of the response with [isAuthenticated] true and [isLoading]
    false, and the Vault holds the matching [access_token] and
    [refresh_token] and, for an [expiresAt] that is a safe integer, its
    decimal digits under [token_expiry], every other entry being as it was.
    When the keystore is unavailable the login succeeds all the same and the
    Vault is left as it was. *)
Theorem hook_login_success (gw : Gateway) (email password : string)
    (w : World) (resp : AuthResponse) :
  gw_login gw email password = Ok resp ->
  let out := run (UseAuth.login gw email password) w in
  fst out = Ret tt /\
  store (snd out) =
    setAuth (r_user resp) (r_accessToken resp) (r_refreshToken resp)
      (store w) /\
  calls (snd out) = CallLogin email password :: calls w /\
  (keystoreUp w = true ->
   vault (snd out) !! ACCESS_TOKEN_KEY = Some (r_accessToken resp) /\
   vault (snd out) !! REFRESH_TOKEN_KEY = Some (r_refreshToken resp) /\
   (isSafeInteger (r_expiresAt resp) = true ->
    vault (snd out) !! TOKEN_EXPIRY_KEY = Some (decimal (r_expiresAt resp))) /\
   forall key, key <> ACCESS_TOKEN_KEY -> key <> REFRESH_TOKEN_KEY ->
               key <> TOKEN_EXPIRY_KEY ->
               vault (snd out) !! key = vault w !! key) /\
  (keystoreUp w = false -> vault (snd out) = vault w).
Proof.
  intros Hok. cbv zeta. rewrite (run_UseAuth_login_ok _ _ _ _ _ Hok).
  cbn [fst snd store vault calls].
  split; [reflexivity |]. split; [reflexivity |]. split; [reflexivity |].
  split; intros ->; [| reflexivity].
  split; [by simplify_map_eq |]. split; [by simplify_map_eq |].
  split.
  { intros Hsafe. rewrite <- (toString_safe _ Hsafe). by simplify_map_eq. }
  intros key H1 H2 H3. by rewrite !lookup_insert_ne.
Qed.

Lemma hook_login_success_witness :
  let out := run (UseAuth.login accepting_gateway "test@example.com" "secret")
               fresh_world in
  isAuthenticated (store (snd out)) = true /\
  vault (snd out) !! TOKEN_EXPIRY_KEY = Some "1700003600000".
Proof.
  cbv zeta.
  destruct (hook_login_success accepting_gateway "test@example.com" "secret"
              fresh_world sample_response eq_refl)
    as (_ & Hs & _ & Hv & _).
  split.
  - rewrite Hs. reflexivity.
  - destruct (Hv eq_refl) as (_ & _ & He & _). exact (He eq_refl).
Defined.

(** X7.  With the keystore available, the expiry written by a successful
    login is the one the refresh predicate reads back, for an [expiresAt]
    and a clock that are safe integers: right after the login,
    [shouldRefreshToken] returns true exactly when the response's
    [expiresAt] is less than five minutes ahead of the clock; and when it is
    not, the periodic [checkAndRefresh] sends nothing and changes nothing. *)
Theorem login_then_refresh_check (gw gw' : Gateway) (email password : string)
    (w : World) (resp : AuthResponse) :
  gw_login gw email password = Ok resp ->
  keystoreUp w = true ->
  isSafeInteger (r_expiresAt resp) = true ->
  isSafeInteger (clock w) = true ->
  let w1 := snd (run (UseAuth.login gw email password) w) in
  run UseAuth.shouldRefreshToken w1 =
    (Ret (r_expiresAt resp - clock w <? 300000)%Z, w1) /\
  ((300000 <= r_expiresAt resp - clock w)%Z ->
   run (RefreshSchedule.checkAndRefresh gw') w1 = (Ret tt, w1)).
Proof.
  intros Hok Hup Hsafe _. cbv zeta.
  rewrite (run_UseAuth_login_ok _ _ _ _ _ Hok).
  cbn [snd]. rewrite Hup.
  assert (Hdue :
    forall w1 : World,
      keystoreUp w1 = true ->
      clock w1 = clock w ->
      vault w1 !! TOKEN_EXPIRY_KEY = Some (toString (r_expiresAt resp)) ->
      run UseAuth.shouldRefreshToken w1 =
        (Ret (r_expiresAt resp - clock w <? 300000)%Z, w1)).
  { intros w1 H1 H2 H3.
    rewrite run_shouldRefreshToken, H1, H3, H2, parseInt_toString
      by exact Hsafe.
    pose proof (toString_truthy (r_expiresAt resp) Hsafe) as Ht. simpl in Ht.
    destruct (String.eqb (toString (r_expiresAt resp)) "");
      [discriminate | reflexivity]. }
  match goal with
  | |- run _ ?w1 = _ /\ _ =>
      assert (H : run UseAuth.shouldRefreshToken w1 =
                  (Ret (r_expiresAt resp - clock w <? 300000)%Z, w1))
        by (apply Hdue; [reflexivity | reflexivity | by simplify_map_eq])
  end.
  split; [exact H |].
  intros Hfar. unfold RefreshSchedule.checkAndRefresh.
  rewrite run_bind, H.
  destruct (Z.ltb_spec (r_expiresAt resp - clock w) 300000); [lia |].
  reflexivity.
Qed.

Lemma login_then_refresh_check_witness :
  let w1 := snd (run (UseAuth.login accepting_gateway "test@example.com"
                        "secret") fresh_world) in
  calls w1 = [CallLogin "test@example.com" "secret"] /\
  run (RefreshSchedule.checkAndRefresh rejecting_gateway) w1 = (Ret tt, w1).
Proof.
  cbv zeta. split; [reflexivity |].
  destruct (login_then_refresh_check accepting_gateway rejecting_gateway
              "test@example.com" "secret" fresh_world sample_response
              eq_refl eq_refl eq_refl eq_refl) as [_ H].
  apply H. simpl. lia.
Defined.

(** X8.  With no refresh token in the store (a cold start), [refreshSession]
    takes the one kept in the Vault: it sends a single refresh request with
    that token, and when the Identity Gateway accepts it the store and the
    Vault hold the rotated tokens of the response, the old refresh token
    being overwritten, and, for an [expiresAt] that is a safe integer, its
    decimal digits under [token_expiry]. *)
Theorem refresh_from_vault (gw : Gateway) (w : World) (tok : string)
    (resp : AuthResponse) :
  truthy (refreshToken (store w)) = false ->
  keystoreUp w = true ->
  vault w !! REFRESH_TOKEN_KEY = Some tok ->
  tok <> "" ->
  gw_refresh gw tok = Ok resp ->
  let out := run (UseAuth.refreshSession gw) w in
  fst out = Ret true /\
  calls (snd out) = CallRefresh tok :: calls w /\
  store (snd out) =
    setAuth (r_user resp) (r_accessToken resp) (r_refreshToken resp)
      (store w) /\
  vault (snd out) !! ACCESS_TOKEN_KEY = Some (r_accessToken resp) /\
  vault (snd out) !! REFRESH_TOKEN_KEY = Some (r_refreshToken resp) /\
  (isSafeInteger (r_expiresAt resp) = true ->
   vault (snd out) !! TOKEN_EXPIRY_KEY = Some (decimal (r_expiresAt resp))).
Proof.
  intros Hs Hup Hv Htok Hok. cbv zeta.
  rewrite (run_refreshSession_ok gw w tok resp); [| | exact Htok | exact Hok].
  - cbn [fst snd store vault calls]. rewrite Hup.
    repeat split; try by simplify_map_eq.
    intros Hsafe. rewrite <- (toString_safe _ Hsafe). by simplify_map_eq.
  - unfold currentRefreshToken. rewrite Hs, Hup. exact Hv.
Qed.

Lemma refresh_from_vault_witness :
  let cold := with_store clearAuth sample_world in
  let out := run (UseAuth.refreshSession accepting_gateway) cold in
  refreshToken (store cold) = None /\
  calls (snd out) = [CallRefresh "refresh-token"] /\
  vault (snd out) !! REFRESH_TOKEN_KEY = Some "new-refresh-token" /\
  isAuthenticated (store (snd out)) = true.
Proof.
  cbv zeta. split; [reflexivity |].
  assert (Hne : "refresh-token" <> "") by discriminate.
  destruct (refresh_from_vault accepting_gateway
              (with_store clearAuth sample_world) "refresh-token"
              sample_response eq_refl eq_refl eq_refl Hne eq_refl)
    as (_ & Hc & Hs & _ & Hr & _).
  split; [exact Hc |]. split; [exact Hr |]. rewrite Hs. reflexivity.
Defined.

(** ** The auth status check of the hook *)

(** Whatever happens, [refreshSession] returns, and what it returns is the
    [isAuthenticated] it leaves; it leaves [isLoading] false. *)
Lemma refreshSession_outcome (gw : Gateway) (w : World) :
  exists (b : bool) (w' : World),
    run (UseAuth.refreshSession gw) w = (Ret b, w') /\
    isAuthenticated (store w') = b /\
    isLoading (store w') = false.
Proof.
  destruct (truthy (currentRefreshToken w)) eqn:Ht.
  - destruct (currentRefreshToken w) as [tok |] eqn:Hcur; [| discriminate].
    assert (Hne : tok <> "").
    { intros ->. discriminate Ht. }
    destruct (gw_refresh gw tok)
      as [resp | st msg cd | | msg | msg | st msg] eqn:Hr;
      [rewrite (run_refreshSession_ok gw w tok resp Hcur Hne Hr)
      | rewrite (run_refreshSession_fail gw w tok Hcur Hne)
          by (rewrite Hr; discriminate) ..];
      eexists _, _; repeat split.
  - rewrite (run_refreshSession_none gw w Ht). eexists _, _. repeat split.
Qed.

(** What [checkAuthStatus] does between [setLoading(true)] and the
    [finally] block. *)
Lemma checkAuthStatus_body (gw : Gateway) (w : World) :
  exists (b : bool) (w' : World),
    run (UseAuth.checkAuthStatus gw) w
    = (Ret b, with_store (setLoading false) w') /\
    isAuthenticated (store w') = b.
Proof.
  unfold UseAuth.checkAuthStatus.
  rewrite run_bind, run_act, run_try_finally, run_try_catch.
  rewrite run_bind, run_getSecureValue, run_bind, run_getSecureValue.
  set (w1 := with_store (setLoading true) w).
  set (a := if keystoreUp w1 then vault w1 !! ACCESS_TOKEN_KEY else None).
  set (r := if keystoreUp w1 then vault w1 !! REFRESH_TOKEN_KEY else None).
  destruct (negb (truthy a) || negb (truthy r))%bool.
  - rewrite run_bind, run_act, run_ret, run_act.
    eexists _, _. split; reflexivity.
  - rewrite run_bind, run_shouldRefreshToken.
    match goal with
    | |- context [if ?d then UseAuth.refreshSession gw else _] =>
        destruct d
    end.
    + destruct (refreshSession_outcome gw w1) as (b & w' & -> & Hb & _).
      rewrite run_act. eauto.
    + rewrite run_try_catch, run_bind.
      unfold AuthService.getCurrentUser. rewrite run_get. cbv zeta.
      set (sent := AuthService.sentToken a w1).
      pose proof (run_request (CallMe sent) (gw_me gw sent) w1) as H.
      destruct (gw_me gw sent) as [u | st msg cd | | msg | msg | st msg].
      * rewrite H, run_bind, run_act, run_ret, run_act.
        eexists _, _. split; reflexivity.
      * destruct H as (e & _ & ->).
        match goal with
        | |- context [run (UseAuth.refreshSession gw) ?w2] =>
            destruct (refreshSession_outcome gw w2) as (b & w' & -> & Hb & _)
        end.
        rewrite run_act. eauto.
      * destruct H as (e & _ & ->).
        destruct (refreshSession_outcome gw (with_call (CallMe sent) w1))
          as (b & w' & -> & Hb & _).
        rewrite run_act. eauto.
      * rewrite H.
        destruct (refreshSession_outcome gw (with_call (CallMe sent) w1))
          as (b & w' & -> & Hb & _).
        rewrite run_act. eauto.
      * rewrite H.
        destruct (refreshSession_outcome gw (with_call (CallMe sent) w1))
          as (b & w' & -> & Hb & _).
        rewrite run_act. eauto.
      * rewrite H.
        destruct (refreshSession_outcome gw (with_call (CallMe sent) w1))
          as (b & w' & -> & Hb & _).
        rewrite run_act. eauto.
Qed.

(** X9.  [checkAuthStatus] never throws: for every Identity Gateway and
    every world it returns a boolean, that boolean is the [isAuthenticated]
    flag it leaves in the store, and it leaves [isLoading] false. *)
Theorem checkAuthStatus_reports_session (gw : Gateway) (w : World) :
  exists b : bool,
    fst (run (UseAuth.checkAuthStatus gw) w) = Ret b /\
    isAuthenticated (store (snd (run (UseAuth.checkAuthStatus gw) w))) = b /\
    isLoading (store (snd (run (UseAuth.checkAuthStatus gw) w))) = false.
Proof.
  destruct (checkAuthStatus_body gw w) as (b & w' & -> & Hb).
  exists b. repeat split. exact Hb.
Qed.

(** With a token missing from the Vault the status check ends at once. *)
Lemma run_checkAuthStatus_missing (gw : Gateway) (w : World) :
  keystoreUp w = false \/
  truthy (vault w !! ACCESS_TOKEN_KEY) = false \/
  truthy (vault w !! REFRESH_TOKEN_KEY) = false ->
  run (UseAuth.checkAuthStatus gw) w =
  (Ret false,
   with_store (setLoading false)
     (with_store clearAuth (with_store (setLoading true) w))).
Proof.
  intros Hmiss. unfold UseAuth.checkAuthStatus.
  rewrite run_bind, run_act, run_try_finally, run_try_catch.
  rewrite run_bind, run_getSecureValue, run_bind, run_getSecureValue.
  cbn [keystoreUp vault with_store].
  assert (Hb : (negb (truthy (if keystoreUp w
                              then vault w !! ACCESS_TOKEN_KEY else None))
                || negb (truthy (if keystoreUp w
                                 then vault w !! REFRESH_TOKEN_KEY
                                 else None)))%bool = true).
  { destruct Hmiss as [-> | [Ha | Hr]]; [reflexivity | |];
      destruct (keystoreUp w); try reflexivity.
    - rewrite Ha. reflexivity.
    - rewrite Hr. apply orb_true_r. }
  rewrite Hb, run_bind, run_act, run_ret, run_act.
  reflexivity.
Qed.

(** X10.  When the keystore is unavailable or either token is missing from
    the Vault (or empty there), [checkAuthStatus] returns false with the
    auth state cleared, even if the store held an authenticated session; it
    sends no request and leaves the Vault as it was. *)
Theorem checkAuthStatus_without_stored_tokens (gw : Gateway) (w : World) :
  keystoreUp w = false \/
  truthy (vault w !! ACCESS_TOKEN_KEY) = false \/
  truthy (vault w !! REFRESH_TOKEN_KEY) = false ->
  let out := run (UseAuth.checkAuthStatus gw) w in
  fst out = Ret false /\
  cleared (store (snd out)) /\
  isLoading (store (snd out)) = false /\
  calls (snd out) = calls w /\
  vault (snd out) = vault w.
Proof.
  intros Hmiss. cbv zeta. unfold UseAuth.checkAuthStatus.
  rewrite run_bind, run_act, run_try_finally, run_try_catch.
  rewrite run_bind, run_getSecureValue, run_bind, run_getSecureValue.
  cbn [keystoreUp vault with_store].
  assert (Hb : (negb (truthy (if keystoreUp w
                              then vault w !! ACCESS_TOKEN_KEY else None))
                || negb (truthy (if keystoreUp w
                                 then vault w !! REFRESH_TOKEN_KEY
                                 else None)))%bool = true).
  { destruct Hmiss as [-> | [Ha | Hr]]; [reflexivity | |];
      destruct (keystoreUp w); try reflexivity.
    - rewrite Ha. reflexivity.
    - rewrite Hr. apply orb_true_r. }
  rewrite Hb, run_bind, run_act, run_ret, run_act.
  repeat split.
Qed.

Lemma checkAuthStatus_without_stored_tokens_witness :
  let w := with_vault (delete ACCESS_TOKEN_KEY) sample_world in
  let out := run (UseAuth.checkAuthStatus accepting_gateway) w in
  isAuthenticated (store w) = true /\
  fst out = Ret false /\
  isAuthenticated (store (snd out)) = false /\
  calls (snd out) = [].
Proof.
  cbv zeta. split; [reflexivity |].
  destruct (checkAuthStatus_without_stored_tokens accepting_gateway
              (with_vault (delete ACCESS_TOKEN_KEY) sample_world))
    as (Hr & (_ & _ & _ & Ha) & _ & Hc & _).
  { right. left. reflexivity. }
  split; [exact Hr |]. split; [exact Ha | exact Hc].
Defined.

Lemma currentRefreshToken_stored (w : World) (r : string) :
  keystoreUp w = true ->
  vault w !! REFRESH_TOKEN_KEY = Some r ->
  r <> "" ->
  exists tok, currentRefreshToken w = Some tok /\ tok <> "".
Proof.
  intros Hup Hv Hr. unfold currentRefreshToken.
  destruct (truthy (refreshToken (store w))) eqn:Ht.
  - destruct (refreshToken (store w)) as [tok |]; [| discriminate].
    exists tok. split; [reflexivity |]. intros ->. discriminate Ht.
  - rewrite Hup. eauto.
Qed.

(** A refresh that the gateway does not accept, from a world whose Vault
    holds a refresh token: false, the session cleared, the token entries
    deleted. *)
Lemma refresh_rejected_logs_out (gw : Gateway) (w : World) (r : string) :
  keystoreUp w = true ->
  vault w !! REFRESH_TOKEN_KEY = Some r ->
  r <> "" ->
  (forall tok resp, gw_refresh gw tok <> Ok resp) ->
  exists w',
    run (UseAuth.refreshSession gw) w = (Ret false, w') /\
    store w' = clearAuth (store w) /\
    vault w' =
      delete TOKEN_EXPIRY_KEY
        (delete REFRESH_TOKEN_KEY (delete ACCESS_TOKEN_KEY (vault w))).
Proof.
  intros Hup Hv Hr Hrej.
  destruct (currentRefreshToken_stored w r Hup Hv Hr) as (tok & Hcur & Hne).
  rewrite (run_refreshSession_fail gw w tok Hcur Hne (Hrej tok)), Hup.
  eexists. repeat split.
Qed.

(** X11.  With both tokens in the Vault, if the Identity Gateway accepts
    neither the "who am I" request nor a refresh (for any reason: a
    rejection, a timeout, no network), [checkAuthStatus] returns false, the
    session is cleared and the three token entries are deleted from the
    Vault: a failure that may be transient logs the user out. *)
Theorem checkAuthStatus_gateway_failure_logs_out
    (gw : Gateway) (w : World) (a r : string) :
  keystoreUp w = true ->
  vault w !! ACCESS_TOKEN_KEY = Some a -> a <> "" ->
  vault w !! REFRESH_TOKEN_KEY = Some r -> r <> "" ->
  (forall tok u, gw_me gw tok <> Ok u) ->
  (forall tok resp, gw_refresh gw tok <> Ok resp) ->
  let out := run (UseAuth.checkAuthStatus gw) w in
  fst out = Ret false /\
  cleared (store (snd out)) /\
  vault (snd out) !! ACCESS_TOKEN_KEY = None /\
  vault (snd out) !! REFRESH_TOKEN_KEY = None /\
  vault (snd out) !! TOKEN_EXPIRY_KEY = None.
Proof.
  intros Hup Ha Hane Hr Hrne Hme Hrej. cbv zeta.
  assert (Hta : truthy (Some a) = true).
  { simpl. destruct (String.eqb_spec a ""); [contradiction | reflexivity]. }
  assert (Htr : truthy (Some r) = true).
  { simpl. destruct (String.eqb_spec r ""); [contradiction | reflexivity]. }
  unfold UseAuth.checkAuthStatus.
  rewrite run_bind, run_act, run_try_finally, run_try_catch.
  rewrite run_bind, run_getSecureValue, run_bind, run_getSecureValue.
  cbn [keystoreUp vault with_store]. rewrite Hup, Ha, Hr, Hta, Htr.
  cbn [negb orb]. rewrite run_bind, run_shouldRefreshToken.
  set (w1 := with_store (setLoading true) w).
  assert (Hfinish :
    forall w2 : World,
      keystoreUp w2 = true -> vault w2 = vault w ->
      exists w',
        run (UseAuth.refreshSession gw) w2 = (Ret false, w') /\
        cleared (store w') /\
        vault w' !! ACCESS_TOKEN_KEY = None /\
        vault w' !! REFRESH_TOKEN_KEY = None /\
        vault w' !! TOKEN_EXPIRY_KEY = None).
  { intros w2 Hup2 Hv2.
    destruct (refresh_rejected_logs_out gw w2 r Hup2) as (w' & Hrun & Hs & Hv);
      [by rewrite Hv2 | exact Hrne | exact Hrej |].
    exists w'. split; [exact Hrun |]. rewrite Hs, Hv.
    split; [repeat split |]. repeat split; by simplify_map_eq. }
  match goal with
  | |- context [if ?d then UseAuth.refreshSession gw else _] => destruct d
  end.
  - destruct (Hfinish w1 Hup eq_refl) as (w' & -> & Hc & H1 & H2 & H3).
    rewrite run_act. cbn [fst snd store vault with_store].
    split; [reflexivity |]. split; [exact Hc | auto].
  - rewrite run_try_catch, run_bind. unfold AuthService.getCurrentUser.
    rewrite run_get. cbv zeta.
    set (sent := AuthService.sentToken (Some a) w1).
    pose proof (request_store (CallMe sent) (gw_me gw sent) w1)
      as (Hv & _ & Hk & _).
    assert (Hout : forall u,
              fst (run (request (CallMe sent) (gw_me gw sent)) w1) <> Ret u).
    { intros u Hu.
      pose proof (run_request (CallMe sent) (gw_me gw sent) w1) as H.
      destruct (gw_me gw sent) as [u' | st msg cd | | msg | msg | st msg] eqn:E;
        [exact (Hme sent u' E) | destruct H as (e & _ & H) ..| | |];
        rewrite H in Hu; discriminate Hu. }
    destruct (run (request (CallMe sent) (gw_me gw sent)) w1)
      as [[u | e] w2] eqn:Hreq; cbn [fst snd] in *.
    + exfalso. exact (Hout u eq_refl).
    + destruct (Hfinish w2) as (w' & -> & Hc & H1 & H2 & H3);
        [rewrite Hk; exact Hup | rewrite Hv; reflexivity |].
      rewrite run_act. cbn [fst snd store vault with_store].
      split; [reflexivity |]. split; [exact Hc | auto].
Qed.

Lemma checkAuthStatus_gateway_failure_logs_out_witness :
  let out := run (UseAuth.checkAuthStatus unreachable_gateway) sample_world in
  isAuthenticated (store sample_world) = true /\
  fst out = Ret false /\
  isAuthenticated (store (snd out)) = false /\
  vault (snd out) !! REFRESH_TOKEN_KEY = None.
Proof.
  cbv zeta. split; [reflexivity |].
  assert (Ha : "access-token" <> "") by discriminate.
  assert (Hr : "refresh-token" <> "") by discriminate.
  destruct (checkAuthStatus_gateway_failure_logs_out unreachable_gateway
              sample_world "access-token" "refresh-token"
              eq_refl eq_refl Ha eq_refl Hr)
    as (Hres & (_ & _ & _ & Hauth) & _ & Hv & _);
    [discriminate | discriminate |].
  split; [exact Hres |]. split; [exact Hauth | exact Hv].
Defined.

(** ** Login through the view model *)

Lemma run_AuthViewModel_login_ok (gw : Gateway) (email password : string)
    (rememberMe : bool) (w : World) (resp : AuthResponse) :
  gw_login gw email password = Ok resp ->
  run (AuthViewModel.login gw email password rememberMe) w =
  (Ret tt,
   {| store := setAuth (r_user resp) (r_accessToken resp)
                 (r_refreshToken resp) (store w);
      vault :=
        if keystoreUp w then
          if rememberMe then
            <[BIOMETRIC_CREDENTIALS_KEY :=
                stringify_credentials email (r_refreshToken resp)]>
              (<[REMEMBER_ME_KEY := email]> (vault w))
          else delete REMEMBER_ME_KEY (vault w)
        else vault w;
      keystoreUp := keystoreUp w;
      clock := clock w;
      calls := CallLogin email password :: calls w;
      vm := {| vm_isLoading := false; vm_error := None;
               vm_hasBiometrics :=
                 if rememberMe then true else vm_hasBiometrics (vm w) |} |}).
Proof.
  intros Hok.
  unfold AuthViewModel.login, AuthService.login, AuthViewModel.clearError,
    AuthViewModel.setIsLoading, AuthViewModel.setError.
  rewrite run_bind, run_modify. cbv iota beta.
  rewrite run_bind, run_act. cbv iota beta.
  rewrite run_bind, run_bind, run_modify. cbv iota beta.
  rewrite run_act. cbv iota beta.
  rewrite run_try_finally, run_try_catch, run_bind.
  match goal with
  | |- context [run (request ?c (gw_login gw email password)) ?w0] =>
      pose proof (run_request c (gw_login gw email password) w0) as H
  end.
  rewrite Hok in *. rewrite H.
  destruct w as [s v [] ck cs m]; destruct rememberMe; reflexivity.
Qed.

(** X12.  When the Identity Gateway accepts the credentials, [login] of the
    view model puts the user and tokens of the response in the store and
    never writes the [access_token], [refresh_token] or [token_expiry]
    entries of the Vault.  With "remember me" it stores the e-mail and the
    biometric bundle (the e-mail and the new refresh token) and turns
    [hasBiometrics] on; without, it deletes the remembered e-mail and leaves
    the biometric bundle and [hasBiometrics] as they were. *)
Theorem view_model_login_success (gw : Gateway) (email password : string)
    (rememberMe : bool) (w : World) (resp : AuthResponse) :
  gw_login gw email password = Ok resp ->
  let out := run (AuthViewModel.login gw email password rememberMe) w in
  fst out = Ret tt /\
  store (snd out) =
    setAuth (r_user resp) (r_accessToken resp) (r_refreshToken resp)
      (store w) /\
  vm_isLoading (vm (snd out)) = false /\
  (vault (snd out) !! ACCESS_TOKEN_KEY = vault w !! ACCESS_TOKEN_KEY /\
   vault (snd out) !! REFRESH_TOKEN_KEY = vault w !! REFRESH_TOKEN_KEY /\
   vault (snd out) !! TOKEN_EXPIRY_KEY = vault w !! TOKEN_EXPIRY_KEY) /\
  (keystoreUp w = true ->
   if rememberMe then
     vault (snd out) !! REMEMBER_ME_KEY = Some email /\
     vault (snd out) !! BIOMETRIC_CREDENTIALS_KEY =
       Some (stringify_credentials email (r_refreshToken resp)) /\
     vm_hasBiometrics (vm (snd out)) = true
   else
     vault (snd out) !! REMEMBER_ME_KEY = None /\
     vault (snd out) !! BIOMETRIC_CREDENTIALS_KEY =
       vault w !! BIOMETRIC_CREDENTIALS_KEY /\
     vm_hasBiometrics (vm (snd out)) = vm_hasBiometrics (vm w)).
Proof.
  intros Hok. cbv zeta.
  rewrite (run_AuthViewModel_login_ok _ _ _ _ _ _ Hok).
  cbn [fst snd store vault vm vm_isLoading vm_hasBiometrics].
  split; [reflexivity |]. split; [reflexivity |]. split; [reflexivity |].
  split.
  - destruct (keystoreUp w), rememberMe; repeat split;
      by simplify_map_eq.
  - intros ->. destruct rememberMe; repeat split; by simplify_map_eq.
Qed.

Lemma view_model_login_success_witness :
  let out := run (AuthViewModel.login accepting_gateway "test@example.com"
                    "secret" true) fresh_world in
  isAuthenticated (store (snd out)) = true /\
  vault (snd out) !! ACCESS_TOKEN_KEY = None /\
  vault (snd out) !! REMEMBER_ME_KEY = Some "test@example.com".
Proof.
  cbv zeta.
  destruct (view_model_login_success accepting_gateway "test@example.com"
              "secret" true fresh_world sample_response eq_refl)
    as (_ & Hs & _ & (Ha & _) & Hv).
  split; [rewrite Hs; reflexivity |]. split; [rewrite Ha; reflexivity |].
  destruct (Hv eq_refl) as (Hm & _). exact Hm.
Defined.

(** X13.  A session opened through the view model does not survive the
    status check of the hook: the view model's [login] leaves no
    [access_token] in a Vault that had none, so a [checkAuthStatus] that
    follows returns false and clears the session that was just opened,
    without asking the Identity Gateway. *)
Theorem view_model_login_then_check (gw gw' : Gateway)
    (email password : string) (rememberMe : bool) (w : World)
    (resp : AuthResponse) :
  gw_login gw email password = Ok resp ->
  vault w !! ACCESS_TOKEN_KEY = None ->
  let w1 := snd (run (AuthViewModel.login gw email password rememberMe) w) in
  let out := run (UseAuth.checkAuthStatus gw') w1 in
  isAuthenticated (store w1) = true /\
  fst out = Ret false /\
  cleared (store (snd out)) /\
  calls (snd out) = calls w1.
Proof.
  intros Hok Hnone. cbv zeta.
  rewrite (run_AuthViewModel_login_ok _ _ _ rememberMe _ _ Hok).
  cbn [snd store]. split; [reflexivity |].
  rewrite run_checkAuthStatus_missing.
  - unfold cleared. repeat split.
  - right. left. cbn [vault].
    destruct (keystoreUp w), rememberMe; simplify_map_eq; by rewrite ?Hnone.
Qed.

Lemma view_model_login_then_check_witness :
  let w1 := snd (run (AuthViewModel.login accepting_gateway
                        "test@example.com" "secret" true) fresh_world) in
  isAuthenticated (store w1) = true /\
  isAuthenticated
    (store (snd (run (UseAuth.checkAuthStatus accepting_gateway) w1)))
  = false.
Proof.
  cbv zeta.
  destruct (view_model_login_then_check accepting_gateway accepting_gateway
              "test@example.com" "secret" true fresh_world sample_response
              eq_refl eq_refl) as (H1 & _ & (_ & _ & _ & H2) & _).
  split; [exact H1 | exact H2].
Defined.

(** ** A valid stored session *)

(** X14.  With the keystore available, both tokens in the Vault, an expiry
    at least five minutes ahead (expiry and clock being safe integers) and
    a "who am I" request that the Identity Gateway answers with the user,
    [checkAuthStatus] returns true after that single request: the store
    holds that user with the tokens of the Vault, [isLoading] is false, the
    Vault is untouched and no refresh is made (the tokens are not rotated).
    The request carries the access token of the store when it holds one,
    and the one of the Vault otherwise; it is the gateway's answer to that
    token which counts. *)
Theorem checkAuthStatus_valid_session (gw : Gateway) (w : World)
    (a r : string) (expiresAt : Z) (u : User) :
  keystoreUp w = true ->
  vault w !! ACCESS_TOKEN_KEY = Some a -> a <> "" ->
  vault w !! REFRESH_TOKEN_KEY = Some r -> r <> "" ->
  isSafeInteger expiresAt = true ->
  isSafeInteger (clock w) = true ->
  vault w !! TOKEN_EXPIRY_KEY = Some (toString expiresAt) ->
  (300000 <= expiresAt - clock w)%Z ->
  gw_me gw (AuthService.sentToken (Some a) w) = Ok u ->
  run (UseAuth.checkAuthStatus gw) w =
  (Ret true,
   {| store := setAuth u a r (store w);
      vault := vault w;
      keystoreUp := keystoreUp w;
      clock := clock w;
      calls := CallMe (AuthService.sentToken (Some a) w) :: calls w;
      vm := vm w |}) /\
  AuthService.sentToken (Some a) w =
    (if truthy (accessToken (store w)) then accessToken (store w)
     else Some a).
Proof.
  intros Hup Ha Hane Hr Hrne Hsafe _ He Hfar Hme.
  assert (Hta : truthy (Some a) = true).
  { simpl. destruct (String.eqb_spec a ""); [contradiction | reflexivity]. }
  assert (Htr : truthy (Some r) = true).
  { simpl. destruct (String.eqb_spec r ""); [contradiction | reflexivity]. }
  split; [| unfold AuthService.sentToken; rewrite Hta; reflexivity].
  unfold UseAuth.checkAuthStatus.
  rewrite run_bind, run_act, run_try_finally, run_try_catch.
  rewrite run_bind, run_getSecureValue, run_bind, run_getSecureValue.
  cbn [keystoreUp vault with_store]. rewrite Hup, Ha, Hr, Hta, Htr.
  cbn [negb orb]. rewrite run_bind, run_shouldRefreshToken.
  cbn [keystoreUp vault clock with_store].
  rewrite Hup, He, parseInt_toString by exact Hsafe.
  pose proof (toString_truthy expiresAt Hsafe) as Ht. simpl in Ht.
  destruct (String.eqb (toString expiresAt) ""); [discriminate |].
  change REFRESH_THRESHOLD with 300000%Z.
  destruct (Z.ltb_spec (expiresAt - clock w) 300000); [lia |].
  rewrite run_try_catch, run_bind. unfold AuthService.getCurrentUser.
  rewrite run_get. cbv zeta.
  change (AuthService.sentToken (Some a) (with_store (setLoading true) w))
    with (AuthService.sentToken (Some a) w).
  pose proof (run_request (CallMe (AuthService.sentToken (Some a) w))
                (gw_me gw (AuthService.sentToken (Some a) w))
                (with_store (setLoading true) w)) as Hreq.
  rewrite Hme in *. rewrite Hreq.
  destruct w as [s v up ck cs m]. simpl in Hup. subst up. reflexivity.
Qed.

Lemma checkAuthStatus_valid_session_witness :
  let w1 := snd (run (UseAuth.login accepting_gateway "test@example.com"
                        "secret") fresh_world) in
  let out := run (UseAuth.checkAuthStatus accepting_gateway) w1 in
  fst out = Ret true /\
  accessToken (store (snd out)) = Some "new-access-token" /\
  calls (snd out) =
    [CallMe (Some "new-access-token"); CallLogin "test@example.com" "secret"] /\
  vault (snd out) = vault w1.
Proof.
  cbv zeta.
  assert (Ha : "new-access-token" <> "") by discriminate.
  assert (Hr : "new-refresh-token" <> "") by discriminate.
  assert (Hfar : (300000 <= 1700003600000 - 1699999000000)%Z) by lia.
  destruct (checkAuthStatus_valid_session accepting_gateway
              (snd (run (UseAuth.login accepting_gateway "test@example.com"
                           "secret") fresh_world))
              "new-access-token" "new-refresh-token" 1700003600000 sample_user
              eq_refl eq_refl Ha eq_refl Hr eq_refl eq_refl eq_refl Hfar
              eq_refl) as [Hrun _].
  rewrite Hrun. repeat split.
Defined.

(** ** Scheduled refresh *)

Lemma refreshSession_clock (gw : Gateway) (w : World) :
  clock (snd (run (UseAuth.refreshSession gw) w)) = clock w.
Proof.
  destruct (truthy (currentRefreshToken w)) eqn:Ht.
  - destruct (currentRefreshToken w) as [tok |] eqn:Hcur; [| discriminate].
    assert (Hne : tok <> "").
    { intros ->. discriminate Ht. }
    destruct (gw_refresh gw tok)
      as [resp | st msg cd | | msg | msg | st msg] eqn:Hr;
      [by rewrite (run_refreshSession_ok gw w tok resp Hcur Hne Hr)
      | by rewrite (run_refreshSession_fail gw w tok Hcur Hne)
          by (rewrite Hr; discriminate) ..].
  - by rewrite (run_refreshSession_none gw w Ht).
Qed.

Lemma run_handleAppStateChange (gw : Gateway) (lastRefreshCheck : Z)
    (w : World) :
  run (RefreshSchedule.handleAppStateChange gw lastRefreshCheck AppActive) w =
  if (clock w - lastRefreshCheck <? 30000)%Z then (Ret lastRefreshCheck, w)
  else if isAuthenticated (store w)
  then (Ret (clock w), snd (run (RefreshSchedule.checkAndRefresh gw) w))
  else (Ret (clock w), w).
Proof.
  unfold RefreshSchedule.handleAppStateChange, RefreshSchedule.checkAndRefresh.
  rewrite run_get.
  destruct (clock w - lastRefreshCheck <? 30000)%Z; [reflexivity |].
  rewrite run_bind.
  destruct (isAuthenticated (store w)); [| reflexivity].
  rewrite !run_bind, run_shouldRefreshToken.
  match goal with
  | |- context [if ?d then UseAuth.refreshSession gw ;; mret tt else _] =>
      destruct d; [| reflexivity]
  end.
  rewrite !run_bind.
  destruct (refreshSession_outcome gw w) as (b & w' & -> & _). reflexivity.
Qed.

(** X15.  The foreground check is debounced and never throws: an
    application-state event returns the time of the last accepted check,
    which is the previous one or the clock; once a check has been accepted
    at time [t], every event that comes less than 30 seconds after [t], and
    every event that is not a transition to the active state, does nothing
    at all.  A check that is accepted while nobody is authenticated does
    nothing either. *)
Theorem foreground_check_debounced (gw : Gateway) (lastRefreshCheck : Z)
    (w : World) :
  let out :=
    run (RefreshSchedule.handleAppStateChange gw lastRefreshCheck AppActive)
      w in
  exists t : Z,
    fst out = Ret t /\
    (t = lastRefreshCheck \/ t = clock w) /\
    clock (snd out) = clock w /\
    (isAuthenticated (store w) = false -> snd out = w) /\
    (forall (gw' : Gateway) (w2 : World),
       (clock w2 - t < 30000)%Z ->
       run (RefreshSchedule.handleAppStateChange gw' t AppActive) w2
       = (Ret t, w2)) /\
    (forall (gw' : Gateway) (w2 : World),
       run (RefreshSchedule.handleAppStateChange gw' t AppBackground) w2
       = (Ret t, w2) /\
       run (RefreshSchedule.handleAppStateChange gw' t AppInactive) w2
       = (Ret t, w2)).
Proof.
  cbv zeta. rewrite run_handleAppStateChange.
  assert (Hlater :
    forall t (gw' : Gateway) (w2 : World),
      (clock w2 - t < 30000)%Z ->
      run (RefreshSchedule.handleAppStateChange gw' t AppActive) w2
      = (Ret t, w2)).
  { intros t gw' w2 Hlt. rewrite run_handleAppStateChange.
    destruct (Z.ltb_spec (clock w2 - t) 30000); [reflexivity | lia]. }
  destruct (clock w - lastRefreshCheck <? 30000)%Z.
  - exists lastRefreshCheck. repeat split; auto.
  - exists (clock w). destruct (isAuthenticated (store w)) eqn:Hauth.
    + cbn [fst snd]. repeat split; auto; try discriminate.
      unfold RefreshSchedule.checkAndRefresh.
      rewrite run_bind, run_shouldRefreshToken.
      match goal with
      | |- context [if ?d then UseAuth.refreshSession gw ;; mret tt else _] =>
          destruct d; [| reflexivity]
      end.
      rewrite run_bind. pose proof (refreshSession_clock gw w) as Hc.
      destruct (refreshSession_outcome gw w) as (b & w' & Hrun & _).
      rewrite Hrun in *. exact Hc.
    + repeat split; auto.
Qed.

(** X16.  The periodic check refreshes a token that is due and then stops:
    with the keystore available and a stored expiry less than five minutes
    ahead, [checkAndRefresh] sends one refresh request; when the Identity
    Gateway accepts it with an expiry at least five minutes ahead, the
    session is authenticated with the new tokens and every later
    [checkAndRefresh] at that clock sends nothing and changes nothing.  The
    two expiries and the clock are safe integers. *)
Theorem periodic_refresh_settles (gw : Gateway) (w : World)
    (expiresAt : Z) (tok : string) (resp : AuthResponse) :
  keystoreUp w = true ->
  isSafeInteger expiresAt = true ->
  isSafeInteger (r_expiresAt resp) = true ->
  isSafeInteger (clock w) = true ->
  vault w !! TOKEN_EXPIRY_KEY = Some (toString expiresAt) ->
  (expiresAt - clock w < 300000)%Z ->
  currentRefreshToken w = Some tok ->
  tok <> "" ->
  gw_refresh gw tok = Ok resp ->
  (300000 <= r_expiresAt resp - clock w)%Z ->
  let w1 := snd (run (RefreshSchedule.checkAndRefresh gw) w) in
  calls w1 = CallRefresh tok :: calls w /\
  isAuthenticated (store w1) = true /\
  refreshToken (store w1) = Some (r_refreshToken resp) /\
  forall gw' : Gateway,
    run (RefreshSchedule.checkAndRefresh gw') w1 = (Ret tt, w1).
Proof.
  intros Hup Hsafe Hsafe' _ He Hdue Hcur Htok Hok Hfar. cbv zeta.
  assert (Hcheck :
    forall (w0 : World) (e : Z),
      isSafeInteger e = true ->
      keystoreUp w0 = true ->
      vault w0 !! TOKEN_EXPIRY_KEY = Some (toString e) ->
      run UseAuth.shouldRefreshToken w0 =
        (Ret (e - clock w0 <? 300000)%Z, w0)).
  { intros w0 e H0 H1 H2.
    rewrite run_shouldRefreshToken, H1, H2, parseInt_toString by exact H0.
    pose proof (toString_truthy e H0) as Ht. simpl in Ht.
    destruct (String.eqb (toString e) ""); [discriminate | reflexivity]. }
  assert (Hfirst :
    run (RefreshSchedule.checkAndRefresh gw) w =
    (Ret tt, snd (run (UseAuth.refreshSession gw) w))).
  { unfold RefreshSchedule.checkAndRefresh.
    rewrite run_bind, (Hcheck w expiresAt Hsafe Hup He).
    destruct (Z.ltb_spec (expiresAt - clock w) 300000); [| lia].
    rewrite run_bind, (run_refreshSession_ok gw w tok resp Hcur Htok Hok).
    reflexivity. }
  rewrite Hfirst, (run_refreshSession_ok gw w tok resp Hcur Htok Hok).
  cbn [fst snd store calls]. rewrite Hup.
  repeat split.
  intros gw'. unfold RefreshSchedule.checkAndRefresh.
  rewrite run_bind, (Hcheck _ (r_expiresAt resp) Hsafe');
    [| reflexivity | by simplify_map_eq].
  cbn [clock].
  destruct (Z.ltb_spec (r_expiresAt resp - clock w) 300000); [lia |].
  reflexivity.
Qed.

Lemma periodic_refresh_settles_witness :
  let due :=
    with_vault (insert TOKEN_EXPIRY_KEY (toString 1699999100000))
      sample_world in
  let w1 := snd (run (RefreshSchedule.checkAndRefresh accepting_gateway) due) in
  calls w1 = [CallRefresh "refresh-token"] /\
  run (RefreshSchedule.checkAndRefresh accepting_gateway) w1 = (Ret tt, w1).
Proof.
  cbv zeta.
  assert (Hne : "refresh-token" <> "") by discriminate.
  assert (Hdue : (1699999100000 - 1699999000000 < 300000)%Z) by lia.
  assert (Hfar : (300000 <= 1700003600000 - 1699999000000)%Z) by lia.
  assert (He : vault (with_vault
                        (insert TOKEN_EXPIRY_KEY (toString 1699999100000))
                        sample_world) !! TOKEN_EXPIRY_KEY
               = Some (toString 1699999100000)) by reflexivity.
  destruct (periodic_refresh_settles accepting_gateway
              (with_vault (insert TOKEN_EXPIRY_KEY (toString 1699999100000))
                 sample_world)
              1699999100000 "refresh-token" sample_response
              eq_refl eq_refl eq_refl eq_refl He Hdue eq_refl Hne eq_refl Hfar)
    as (Hc & _ & _ & Hstop).
  split; [exact Hc | apply Hstop].
Defined.

(** ** Biometric login *)

(** The world in which the body of a view-model operation starts: both
    loading flags set, both errors reset. *)
Lemma run_view_model_prefix {A : Type} (t : Task A) (w : World) :
  run (AuthViewModel.setIsLoading true ;;
       act (setLoading true) ;;
       AuthViewModel.clearError ;;
       t) w =
  run t (with_store (setError None)
           (with_vm (set_vm_error None)
              (with_store (setLoading true)
                 (with_vm (set_vm_isLoading true) w)))).
Proof.
  unfold AuthViewModel.clearError, AuthViewModel.setIsLoading,
    AuthViewModel.setError.
  rewrite run_bind, run_modify. cbv iota beta.
  rewrite run_bind, run_act. cbv iota beta.
  rewrite run_bind, run_bind, run_modify. cbv iota beta.
  rewrite run_act. cbv iota beta. reflexivity.
Qed.

(** What is done with an error caught during a biometric login. *)
Lemma run_biometric_handler (m : string) (err : Exn) (w : World) :
  run (AuthViewModel.setError (Some m) ;;
       act (Store.setError (Some m)) ;;
       deleteSecureValue BIOMETRIC_CREDENTIALS_KEY ;;
       AuthViewModel.setHasBiometrics false ;;
       (throw err : Task unit)) w =
  (Throw err,
   {| store := setError (Some m) (store w);
      vault :=
        if keystoreUp w then delete BIOMETRIC_CREDENTIALS_KEY (vault w)
        else vault w;
      keystoreUp := keystoreUp w;
      clock := clock w;
      calls := calls w;
      vm := {| vm_isLoading := vm_isLoading (vm w); vm_error := Some m;
               vm_hasBiometrics := false |} |}).
Proof. destruct w as [s v [] ck cs vm0]; reflexivity. Qed.

(** A biometric login that fails: the error is the one its body threw, and
    the world is the one the body left, with the error recorded, the
    bundle deleted and both loading flags reset. *)
Lemma run_loginWithBiometrics (JSON_parse : string -> Result Credentials)
    (gw : Gateway) (w : World) :
  let w0 :=
    with_store (setError None)
      (with_vm (set_vm_error None)
         (with_store (setLoading true)
            (with_vm (set_vm_isLoading true) w))) in
  let stored :=
    if keystoreUp w then vault w !! BIOMETRIC_CREDENTIALS_KEY else None in
  let failed (err : Exn) (w' : World) :=
    let m := AuthViewModel.errorMessage err "Biometric login failed" in
    (Throw err : Result unit,
     {| store := setLoading false (setError (Some m) (store w'));
        vault :=
          if keystoreUp w' then delete BIOMETRIC_CREDENTIALS_KEY (vault w')
          else vault w';
        keystoreUp := keystoreUp w';
        clock := clock w';
        calls := calls w';
        vm := {| vm_isLoading := false; vm_error := Some m;
                 vm_hasBiometrics := false |} |}) in
  run (Biometrics.loginWithBiometrics JSON_parse gw) w =
  if negb (truthy stored) then
    failed (ExnError "No biometric credentials found") w0
  else
    match JSON_parse (default "" stored) with
    | Throw err => failed err w0
    | Ret credentials =>
        match run (AuthService.refreshSession gw (c_refreshToken credentials))
                w0 with
        | (Throw err, w') => failed err w'
        | (Ret response, w') =>
            (Ret tt,
             with_store (setLoading false)
               (with_vm (set_vm_isLoading false)
                  (snd (run (setSecureValue BIOMETRIC_CREDENTIALS_KEY
                               (stringify_credentials (c_email credentials)
                                  (r_refreshToken response)))
                          (with_store
                             (setAuth (r_user response)
                                (r_accessToken response)
                                (r_refreshToken response)) w')))))
        end
    end.
Proof.
  cbv zeta. unfold Biometrics.loginWithBiometrics.
  rewrite run_view_model_prefix, run_try_finally, run_try_catch, run_bind,
    run_getSecureValue.
  cbn [keystoreUp vault with_store with_vm].
  destruct (negb (truthy (if keystoreUp w
                          then vault w !! BIOMETRIC_CREDENTIALS_KEY
                          else None))).
  - rewrite run_throw. cbv beta zeta.
    rewrite run_biometric_handler.
    destruct w as [s v up ck cs vm0]; reflexivity.
  - rewrite run_bind.
    destruct (JSON_parse _) as [credentials | err]; cbn [run].
    + rewrite run_bind.
      destruct (run (AuthService.refreshSession gw _) _)
        as [[response | err] w'].
      * rewrite run_bind, run_act. cbv iota beta.
        rewrite run_bind.
        destruct (run (setSecureValue _ _) _) as [[b | err] w''] eqn:Hset.
        -- rewrite run_ret. cbn [snd].
           unfold AuthViewModel.setIsLoading. rewrite run_bind, run_modify.
           cbv iota beta. rewrite run_act. reflexivity.
        -- rewrite run_setSecureValue in Hset.
           destruct (keystoreUp _); discriminate Hset.
      * cbv beta zeta. rewrite run_biometric_handler.
        unfold AuthViewModel.setIsLoading. rewrite run_bind, run_modify.
        cbv iota beta. rewrite run_act.
        destruct w' as [s v up ck cs vm0]; reflexivity.
    + cbv beta zeta. rewrite run_biometric_handler.
      destruct w as [s v up ck cs vm0]; reflexivity.
Qed.

(** A biometric login whose bundle parses and whose refresh token the
    gateway accepts. *)
Lemma run_loginWithBiometrics_ok
    (JSON_parse : string -> Result Credentials) (gw : Gateway) (w : World)
    (json : string) (credentials : Credentials) (resp : AuthResponse) :
  keystoreUp w = true ->
  vault w !! BIOMETRIC_CREDENTIALS_KEY = Some json ->
  json <> "" ->
  JSON_parse json = Ret credentials ->
  gw_refresh gw (c_refreshToken credentials) = Ok resp ->
  run (Biometrics.loginWithBiometrics JSON_parse gw) w =
  (Ret tt,
   {| store := setAuth (r_user resp) (r_accessToken resp)
                 (r_refreshToken resp) (store w);
      vault :=
        <[BIOMETRIC_CREDENTIALS_KEY :=
            stringify_credentials (c_email credentials)
              (r_refreshToken resp)]> (vault w);
      keystoreUp := true;
      clock := clock w;
      calls := CallRefresh (c_refreshToken credentials) :: calls w;
      vm := {| vm_isLoading := false; vm_error := None;
               vm_hasBiometrics := vm_hasBiometrics (vm w) |} |}).
Proof.
  intros Hup Hv Hjson Hparse Hok.
  rewrite run_loginWithBiometrics. cbv zeta.
  rewrite Hup, Hv.
  assert (Ht : truthy (Some json) = true).
  { simpl. destruct (String.eqb_spec json ""); [contradiction | reflexivity]. }
  rewrite Ht. cbn [negb default from_option id]. cbv iota.
  change (default "" (Some json)) with json. rewrite Hparse.
  unfold AuthService.refreshSession.
  match goal with
  | |- context [run (request ?c ?reply) ?w0] =>
      pose proof (run_request c reply w0) as H
  end.
  rewrite Hok in *. rewrite H, run_setSecureValue.
  cbn [keystoreUp with_store with_call with_vm]. rewrite Hup.
  destruct w as [s v up ck cs vm0]. simpl in Hup. subst up. reflexivity.
Qed.

Lemma stringify_credentials_nonempty (email token : string) :
  stringify_credentials email token <> "".
Proof. unfold stringify_credentials. simpl. discriminate. Qed.

(** X17.  With no bundle under [biometric_credentials] (or an empty one, or
    a keystore that does not answer), [loginWithBiometrics] throws "No
    biometric credentials found" without parsing anything or asking the
    Identity Gateway: the Session fields are what they were, the message is
    recorded as the error of the store and of the view model,
    [hasBiometrics] is off and both loading flags are reset. *)
Theorem biometric_login_without_bundle
    (JSON_parse : string -> Result Credentials) (gw : Gateway) (w : World) :
  keystoreUp w = false \/
  truthy (vault w !! BIOMETRIC_CREDENTIALS_KEY) = false ->
  let out := run (Biometrics.loginWithBiometrics JSON_parse gw) w in
  fst out = Throw (ExnError "No biometric credentials found") /\
  calls (snd out) = calls w /\
  same_session (store w) (store (snd out)) /\
  error (store (snd out)) = Some "No biometric credentials found" /\
  isLoading (store (snd out)) = false /\
  vm (snd out) =
    {| vm_isLoading := false;
       vm_error := Some "No biometric credentials found";
       vm_hasBiometrics := false |}.
Proof.
  intros Hnone. cbv zeta. rewrite run_loginWithBiometrics. cbv zeta.
  assert (Hs : truthy (if keystoreUp w
                       then vault w !! BIOMETRIC_CREDENTIALS_KEY
                       else None) = false).
  { destruct Hnone as [-> | Hv]; [reflexivity |].
    destruct (keystoreUp w); [exact Hv | reflexivity]. }
  rewrite Hs. cbn [negb]. cbv iota.
  unfold same_session. repeat split.
Qed.

Lemma biometric_login_without_bundle_witness :
  let out := run (Biometrics.loginWithBiometrics sample_parse
                    accepting_gateway) fresh_world in
  fst out = Throw (ExnError "No biometric credentials found") /\
  calls (snd out) = [].
Proof.
  cbv zeta.
  destruct (biometric_login_without_bundle sample_parse accepting_gateway
              fresh_world) as (H1 & H2 & _).
  { right. reflexivity. }
  split; [exact H1 | exact H2].
Defined.

(** X18.  After a [logout] of the view model made with the keystore
    available, a biometric login is refused, whether the keystore is
    available or not by then and whatever the parser and the Identity
    Gateway do: [loginWithBiometrics] throws "No biometric credentials
    found", sends nothing, and the session stays logged out.  A [logout]
    made while the keystore is out of reach leaves the bundle where it is,
    and once the keystore answers again a biometric login with that bundle
    is accepted. *)
Theorem view_model_logout_disables_biometrics
    (JSON_parse : string -> Result Credentials) (gw gw' : Gateway)
    (w : World) (up : bool) :
  keystoreUp w = true ->
  let w1 := with_keystore up (snd (run (AuthViewModel.logout gw) w)) in
  let out := run (Biometrics.loginWithBiometrics JSON_parse gw') w1 in
  (fst out = Throw (ExnError "No biometric credentials found") /\
   calls (snd out) = calls w1 /\
   isAuthenticated (store (snd out)) = false /\
   vm_hasBiometrics (vm (snd out)) = false) /\
  (forall (w0 : World) (json : string) (credentials : Credentials)
          (resp : AuthResponse),
     keystoreUp w0 = false ->
     vault w0 !! BIOMETRIC_CREDENTIALS_KEY = Some json ->
     json <> "" ->
     JSON_parse json = Ret credentials ->
     gw_refresh gw' (c_refreshToken credentials) = Ok resp ->
     let w2 := snd (run (AuthViewModel.logout gw) w0) in
     let out2 :=
       run (Biometrics.loginWithBiometrics JSON_parse gw')
         (with_keystore true w2) in
     vault w2 = vault w0 /\
     fst out2 = Ret tt /\
     isAuthenticated (store (snd out2)) = true).
Proof.
  intros Hup. cbv zeta. split.
  - rewrite run_loginWithBiometrics. cbv zeta.
    rewrite run_AuthViewModel_logout.
    cbn [snd keystoreUp vault with_keystore]. rewrite Hup.
    assert (Hs : truthy (if up
                         then delete BIOMETRIC_CREDENTIALS_KEY (vault w)
                                !! BIOMETRIC_CREDENTIALS_KEY
                         else None) = false).
    { destruct up; [| reflexivity]. by rewrite lookup_delete_eq. }
    rewrite Hs. cbn [negb]. cbv iota. repeat split.
  - intros w0 json credentials resp Hdown Hv Hjson Hparse Hok.
    rewrite run_AuthViewModel_logout. cbn [snd vault]. rewrite Hdown.
    split; [reflexivity |].
    rewrite (run_loginWithBiometrics_ok JSON_parse gw' _ json credentials resp);
      [split; reflexivity | reflexivity | exact Hv | exact Hjson
      | exact Hparse | exact Hok].
Qed.

Lemma view_model_logout_disables_biometrics_witness :
  let w1 := snd (run (AuthViewModel.logout accepting_gateway) sample_world) in
  is_Some (vault sample_world !! BIOMETRIC_CREDENTIALS_KEY) /\
  fst (run (Biometrics.loginWithBiometrics sample_parse accepting_gateway)
         (with_keystore false w1))
    = Throw (ExnError "No biometric credentials found") /\
  fst (run (Biometrics.loginWithBiometrics sample_parse accepting_gateway)
         (with_keystore true w1))
    = Throw (ExnError "No biometric credentials found") /\
  fst (run (Biometrics.loginWithBiometrics sample_parse accepting_gateway)
         (with_keystore true
            (snd (run (AuthViewModel.logout accepting_gateway)
                    (with_keystore false sample_world)))))
    = Ret tt.
Proof.
  cbv zeta. split; [eexists; reflexivity |].
  assert (Hne : stringify_credentials "test@example.com" "refresh-token"
                <> "") by discriminate.
  split; [| split].
  - destruct (view_model_logout_disables_biometrics sample_parse
                accepting_gateway accepting_gateway sample_world false eq_refl)
      as [(H & _) _].
    exact H.
  - destruct (view_model_logout_disables_biometrics sample_parse
                accepting_gateway accepting_gateway sample_world true eq_refl)
      as [(H & _) _].
    exact H.
  - destruct (view_model_logout_disables_biometrics sample_parse
                accepting_gateway accepting_gateway sample_world true eq_refl)
      as [_ H].
    destruct (H (with_keystore false sample_world) _
                {| c_email := "test@example.com";
                   c_refreshToken := "refresh-token" |}
                sample_response eq_refl eq_refl Hne eq_refl eq_refl)
      as (_ & Hret & _).
    exact Hret.
Defined.

(** X19.  A biometric login that fails, for whatever reason (no bundle, a
    bundle that does not parse, a refresh that the Identity Gateway does
    not accept, a timeout, no network), disables biometric login: with the
    keystore available, the bundle is gone from the Vault afterwards,
    [hasBiometrics] is off, the error message is recorded in the store and
    in the view model, and both loading flags are reset. *)
Theorem biometric_login_failure_disables
    (JSON_parse : string -> Result Credentials) (gw : Gateway) (w : World)
    (err : Exn) :
  keystoreUp w = true ->
  fst (run (Biometrics.loginWithBiometrics JSON_parse gw) w) = Throw err ->
  let w' := snd (run (Biometrics.loginWithBiometrics JSON_parse gw) w) in
  let m := AuthViewModel.errorMessage err "Biometric login failed" in
  vault w' !! BIOMETRIC_CREDENTIALS_KEY = None /\
  vm w' = {| vm_isLoading := false; vm_error := Some m;
             vm_hasBiometrics := false |} /\
  error (store w') = Some m /\
  isLoading (store w') = false.
Proof.
  intros Hup. cbv zeta. rewrite run_loginWithBiometrics. cbv zeta.
  rewrite Hup.
  destruct (negb (truthy (vault w !! BIOMETRIC_CREDENTIALS_KEY))).
  - cbn [fst snd keystoreUp vault with_store with_vm store vm].
    intros [= <-]. rewrite Hup. repeat split. by rewrite lookup_delete_eq.
  - destruct (JSON_parse _) as [credentials | e].
    + unfold AuthService.refreshSession.
      match goal with
      | |- context [run (request ?c ?reply) ?w0] =>
          pose proof (request_store c reply w0) as (_ & _ & Hk & _);
          destruct (run (request c reply) w0) as [[response | e] w2]
      end.
      * intros Hf. discriminate Hf.
      * cbn [fst snd keystoreUp with_store with_vm] in Hk.
        cbn [fst snd keystoreUp vault store vm].
        intros [= <-]. rewrite Hk, Hup. repeat split.
        by rewrite lookup_delete_eq.
    + cbn [fst snd keystoreUp vault with_store with_vm store vm].
      intros [= <-]. rewrite Hup. repeat split. by rewrite lookup_delete_eq.
Qed.

Lemma biometric_login_failure_disables_witness :
  let out := run (Biometrics.loginWithBiometrics sample_parse
                    rejecting_gateway) sample_world in
  is_Some (vault sample_world !! BIOMETRIC_CREDENTIALS_KEY) /\
  (exists e, fst out = Throw (ExnApi e) /\ status e = 401%Z) /\
  vault (snd out) !! BIOMETRIC_CREDENTIALS_KEY = None /\
  vm_error (vm (snd out)) = Some "Biometric login failed".
Proof.
  cbv zeta. split; [eexists; reflexivity |].
  split; [eexists; split; reflexivity |].
  destruct (biometric_login_failure_disables sample_parse rejecting_gateway
              sample_world
              (ExnApi {| status := 401; message := "Invalid refresh token";
                         code := None |}) eq_refl eq_refl)
    as (Hv & Hvm & _).
  split; [exact Hv |]. rewrite Hvm. reflexivity.
Defined.

(** X20.  With the keystore available and, under [biometric_credentials],
    a bundle as the logins write it ([JSON.stringify] of an e-mail and a
    refresh token, which [JSON.parse] reads back), when the Identity Gateway
    accepts that refresh token [loginWithBiometrics] returns normally after
    that single refresh request: the store holds the user and tokens of the
    response, the bundle is rewritten as [JSON.stringify] of the same e-mail
    and the rotated refresh token, and the [access_token], [refresh_token]
    and [token_expiry] entries of the Vault are not written. *)
Theorem biometric_login_success
    (JSON_parse : string -> Result Credentials) (gw : Gateway) (w : World)
    (email token : string) (resp : AuthResponse) :
  keystoreUp w = true ->
  vault w !! BIOMETRIC_CREDENTIALS_KEY =
    Some (stringify_credentials email token) ->
  JSON_parse (stringify_credentials email token) =
    Ret {| c_email := email; c_refreshToken := token |} ->
  gw_refresh gw token = Ok resp ->
  run (Biometrics.loginWithBiometrics JSON_parse gw) w =
  (Ret tt,
   {| store := setAuth (r_user resp) (r_accessToken resp)
                 (r_refreshToken resp) (store w);
      vault :=
        <[BIOMETRIC_CREDENTIALS_KEY :=
            stringify_credentials email (r_refreshToken resp)]> (vault w);
      keystoreUp := true;
      clock := clock w;
      calls := CallRefresh token :: calls w;
      vm := {| vm_isLoading := false; vm_error := None;
               vm_hasBiometrics := vm_hasBiometrics (vm w) |} |}).
Proof.
  intros Hup Hv Hparse Hok.
  exact (run_loginWithBiometrics_ok JSON_parse gw w _
           {| c_email := email; c_refreshToken := token |} resp
           Hup Hv (stringify_credentials_nonempty email token) Hparse Hok).
Qed.

Lemma biometric_login_success_witness :
  let out := run (Biometrics.loginWithBiometrics sample_parse
                    accepting_gateway) sample_world in
  fst out = Ret tt /\
  vault (snd out) !! BIOMETRIC_CREDENTIALS_KEY =
    Some (stringify_credentials "test@example.com" "new-refresh-token") /\
  vault (snd out) !! REFRESH_TOKEN_KEY = Some "refresh-token".
Proof.
  cbv zeta.
  assert (Hv : vault sample_world !! BIOMETRIC_CREDENTIALS_KEY =
               Some (stringify_credentials "test@example.com"
                       "refresh-token")) by reflexivity.
  rewrite (biometric_login_success sample_parse accepting_gateway
             sample_world "test@example.com" "refresh-token"
             sample_response eq_refl Hv eq_refl eq_refl).
  repeat split.
Defined.

(** X21.  [logout] of the hook does not disable biometric login: after it,
    with the bundle still in the Vault, [loginWithBiometrics] opens the
    session again as soon as the Identity Gateway accepts the refresh token
    of the bundle, with no password asked. *)
Theorem hook_logout_keeps_biometric_login
    (JSON_parse : string -> Result Credentials) (gw gw' : Gateway)
    (w : World) (json : string) (credentials : Credentials)
    (resp : AuthResponse) :
  keystoreUp w = true ->
  vault w !! BIOMETRIC_CREDENTIALS_KEY = Some json ->
  json <> "" ->
  JSON_parse json = Ret credentials ->
  gw_refresh gw' (c_refreshToken credentials) = Ok resp ->
  let w1 := snd (run (UseAuth.logout gw) w) in
  let out := run (Biometrics.loginWithBiometrics JSON_parse gw') w1 in
  isAuthenticated (store w1) = false /\
  fst out = Ret tt /\
  isAuthenticated (store (snd out)) = true /\
  refreshToken (store (snd out)) = Some (r_refreshToken resp) /\
  calls (snd out) =
    CallRefresh (c_refreshToken credentials) :: CallLogout :: calls w.
Proof.
  intros Hup Hv Hjson Hparse Hok. cbv zeta.
  rewrite (run_loginWithBiometrics_ok JSON_parse gw'
             (snd (run (UseAuth.logout gw) w)) json credentials resp);
    try assumption.
  - rewrite run_UseAuth_logout. repeat split.
  - rewrite run_UseAuth_logout. exact Hup.
  - rewrite run_UseAuth_logout. cbn [snd vault]. rewrite Hup.
    by rewrite !lookup_delete_ne.
Qed.

Lemma hook_logout_keeps_biometric_login_witness :
  let w1 := snd (run (UseAuth.logout accepting_gateway) sample_world) in
  let out := run (Biometrics.loginWithBiometrics sample_parse
                    accepting_gateway) w1 in
  isAuthenticated (store w1) = false /\
  isAuthenticated (store (snd out)) = true.
Proof.
  cbv zeta.
  assert (Hv : vault sample_world !! BIOMETRIC_CREDENTIALS_KEY =
               Some (stringify_credentials "test@example.com"
                       "refresh-token")) by reflexivity.
  assert (Hne : stringify_credentials "test@example.com" "refresh-token"
                <> "") by discriminate.
  destruct (hook_logout_keeps_biometric_login sample_parse accepting_gateway
              accepting_gateway sample_world _
              {| c_email := "test@example.com";
                 c_refreshToken := "refresh-token" |}
              sample_response eq_refl Hv Hne eq_refl eq_refl)
    as (H1 & _ & H2 & _).
  split; [exact H1 | exact H2].
Defined.

(** ** The headers of a request *)

Lemma run_prepareRequest (dev : bool) (requestTime method : string)
    (options : RequestConfig) (w : World) :
  run (prepareRequest dev requestTime method options) w =
  (Ret
     (let config := initialConfig method options in
      let config1 :=
        if truthy (accessToken (store w)) then
          with_headers
            (<["Authorization" :=
                 "Bearer " ++ default "" (accessToken (store w))]>
               (default ∅ (rc_headers config))) config
        else config in
      if dev then
        with_headers
          (<["X-Request-Time" := requestTime]>
             (default ∅ (rc_headers config1))) config1
      else config1),
   w).
Proof.
  unfold prepareRequest, requestInterceptors, requestInterceptor,
    loggingInterceptor.
  destruct dev; cbn [applyRequestInterceptors];
    rewrite !run_bind, run_get, !run_ret; reflexivity.
Qed.

(** X22.  Preparing a request changes nothing in the world, and the
    configuration handed to [fetch] carries, as [Authorization],
    ["Bearer "] followed by the access token that the store holds at that
    moment, even when the caller supplied another one; with no access token
    in the store the caller's [Authorization], if any, is sent as it is.
    The default [Content-Type] is [application/json] when the caller gives
    no headers; when the caller gives headers, these replace the default
    ones, so [Content-Type] is only what the caller put there. *)
Theorem request_headers (dev : bool) (requestTime method : string)
    (options : RequestConfig) (w : World) :
  exists config : RequestConfig,
    run (prepareRequest dev requestTime method options) w = (Ret config, w) /\
    (forall a, accessToken (store w) = Some a -> a <> "" ->
       default ∅ (rc_headers config) !! "Authorization"
       = Some ("Bearer " ++ a)) /\
    (truthy (accessToken (store w)) = false ->
       default ∅ (rc_headers config) !! "Authorization"
       = default ∅ (rc_headers options) !! "Authorization") /\
    (rc_headers options = None ->
       default ∅ (rc_headers config) !! "Content-Type"
       = Some "application/json") /\
    (forall h, rc_headers options = Some h ->
       default ∅ (rc_headers config) !! "Content-Type" = h !! "Content-Type") /\
    rc_method config = Some (default method (rc_method options)) /\
    rc_body config = rc_body options.
Proof.
  eexists. split; [apply run_prepareRequest |].
  cbv zeta. unfold initialConfig, with_headers.
  split; [| split; [| split; [| split; [| split]]]].
  - intros a Ha Hne. rewrite Ha.
    assert (Ht : truthy (Some a) = true).
    { simpl. destruct (String.eqb_spec a ""); [contradiction | reflexivity]. }
    rewrite Ht. destruct dev; simpl; by simplify_map_eq.
  - intros ->. destruct dev, (rc_headers options); simpl; by simplify_map_eq.
  - intros ->.
    destruct dev, (truthy (accessToken (store w))); simpl;
      by simplify_map_eq.
  - intros h ->.
    destruct dev, (truthy (accessToken (store w))); simpl;
      by simplify_map_eq.
  - destruct dev, (truthy (accessToken (store w))), (rc_method options);
      reflexivity.
  - destruct dev, (truthy (accessToken (store w))); reflexivity.
Qed.

Lemma request_headers_witness :
  let options :=
    {| rc_method := None; rc_url := None;
       rc_headers := Some (<["Authorization" := "Bearer stored-token"]> ∅);
       rc_body := None; rc_params := None |} in
  exists config,
    fst (run (prepareRequest false "" "GET" options) sample_world)
    = Ret config /\
    default ∅ (rc_headers config) !! "Authorization"
    = Some "Bearer access-token" /\
    default ∅ (rc_headers config) !! "Content-Type" = None.
Proof.
  cbv zeta.
  destruct (request_headers false "" "GET"
              {| rc_method := None; rc_url := None;
                 rc_headers :=
                   Some (<["Authorization" := "Bearer stored-token"]> ∅);
                 rc_body := None; rc_params := None |} sample_world)
    as (config & Hrun & Hauth & _ & _ & Hct & _).
  exists config. rewrite Hrun. split; [reflexivity |]. split.
  - apply (Hauth "access-token"); [reflexivity | discriminate].
  - rewrite (Hct _ eq_refl). reflexivity.
Defined.

(** X23.  The token sent follows the session: the request prepared right
    after a successful [refreshSession] carries the new access token, and
    the one prepared right after [logout] carries no token of the store
    (only what the caller supplied). *)
Theorem request_token_follows_session (gw : Gateway) (w : World)
    (tok : string) (resp : AuthResponse) (dev : bool)
    (requestTime method : string) (options : RequestConfig) :
  currentRefreshToken w = Some tok ->
  tok <> "" ->
  gw_refresh gw tok = Ok resp ->
  r_accessToken resp <> "" ->
  (exists config,
     fst (run (prepareRequest dev requestTime method options)
            (snd (run (UseAuth.refreshSession gw) w))) = Ret config /\
     default ∅ (rc_headers config) !! "Authorization"
     = Some ("Bearer " ++ r_accessToken resp)) /\
  (forall gw' : Gateway,
   exists config,
     fst (run (prepareRequest dev requestTime method options)
            (snd (run (UseAuth.logout gw') w))) = Ret config /\
     default ∅ (rc_headers config) !! "Authorization"
     = default ∅ (rc_headers options) !! "Authorization").
Proof.
  intros Hcur Htok Hok Ha. split.
  - destruct (request_headers dev requestTime method options
                (snd (run (UseAuth.refreshSession gw) w)))
      as (config & Hrun & Hauth & _).
    exists config. rewrite Hrun. split; [reflexivity |].
    apply Hauth; [| exact Ha].
    rewrite (run_refreshSession_ok gw w tok resp Hcur Htok Hok). reflexivity.
  - intros gw'.
    destruct (request_headers dev requestTime method options
                (snd (run (UseAuth.logout gw') w)))
      as (config & Hrun & _ & Hnone & _).
    exists config. rewrite Hrun. split; [reflexivity |].
    apply Hnone. rewrite run_UseAuth_logout. reflexivity.
Qed.

Lemma request_token_follows_session_witness :
  let options :=
    {| rc_method := None; rc_url := None; rc_headers := None;
       rc_body := None; rc_params := None |} in
  exists config,
    fst (run (prepareRequest false "" "POST" options)
           (snd (run (UseAuth.refreshSession accepting_gateway)
                   sample_world))) = Ret config /\
    default ∅ (rc_headers config) !! "Authorization"
    = Some "Bearer new-access-token".
Proof.
  cbv zeta.
  assert (H1 : "refresh-token" <> "") by discriminate.
  assert (H2 : "new-access-token" <> "") by discriminate.
  destruct (request_token_follows_session accepting_gateway sample_world
              "refresh-token" sample_response false "" "POST"
              {| rc_method := None; rc_url := None; rc_headers := None;
                 rc_body := None; rc_params := None |}
              eq_refl H1 eq_refl H2) as [H _].
  exact H.
Defined.

(** ** The retry interceptor *)

Lemma retryInterceptor_step (maxRetries retryDelay retryCount : Z)
    (error : TrackedError) :
  (0 <= maxRetries)%Z ->
  (0 <= retryCount <= maxRetries)%Z ->
  let '(count', waited, error') :=
    retryInterceptor maxRetries retryDelay retryCount error in
  (0 <= count' <= maxRetries)%Z /\
  te_error error' = te_error error /\
  ((count' = 0%Z /\ waited = 0%Z /\ error' = error) \/
   (count' = (retryCount + 1)%Z /\
    shouldRetry (status (te_error error)) = true /\
    te_retryAttempt error' = Some count' /\
    waited = (retryDelay * count')%Z)).
Proof.
  intros Hmax Hc. unfold retryInterceptor.
  destruct (shouldRetry (status (te_error error))); simpl.
  - destruct (Z.ltb_spec retryCount maxRetries); simpl.
    + split; [lia |]. split; [reflexivity |]. right. auto.
    + split; [lia |]. split; [reflexivity |]. left. auto.
  - split; [lia |]. split; [reflexivity |]. left. auto.
Qed.

(** X24.  The retry interceptor never counts past [maxRetries]: starting
    from a fresh counter, after any series of errors the counter is between
    0 and [maxRetries]; each error comes back with its status, message and
    code untouched, either as it was with no wait (and the counter reset),
    or marked with an attempt number between 1 and [maxRetries] after a
    wait of [retryDelay] times that number. *)
Theorem retry_counter_bounded (maxRetries retryDelay retryCount : Z)
    (errors : list TrackedError) :
  (0 <= maxRetries)%Z ->
  (0 <= retryCount <= maxRetries)%Z ->
  let out := retrySeries maxRetries retryDelay retryCount errors in
  (0 <= fst out <= maxRetries)%Z /\
  Forall2
    (fun error result =>
       te_error (snd result) = te_error error /\
       ((fst result = 0%Z /\ snd result = error) \/
        (exists k : Z,
           (1 <= k <= maxRetries)%Z /\
           te_retryAttempt (snd result) = Some k /\
           fst result = (retryDelay * k)%Z)))
    errors (snd out).
Proof.
  intros Hmax. revert retryCount.
  induction errors as [| error rest IH]; intros retryCount Hc; cbv zeta.
  - simpl. split; [exact Hc | constructor].
  - cbn [retrySeries].
    pose proof (retryInterceptor_step maxRetries retryDelay retryCount error
                  Hmax Hc) as Hstep.
    destruct (retryInterceptor maxRetries retryDelay retryCount error)
      as [[count' waited] error'].
    destruct Hstep as (Hc' & Herr & Hkind).
    specialize (IH count' Hc'). cbv zeta in IH.
    destruct (retrySeries maxRetries retryDelay count' rest) as [final out].
    cbn [fst snd] in *. destruct IH as [Hfinal Hall].
    split; [exact Hfinal |]. constructor; [| exact Hall].
    cbn [fst snd]. split; [exact Herr |].
    destruct Hkind as [(_ & -> & ->) | (-> & _ & Hatt & ->)].
    + left. auto.
    + right. exists (retryCount + 1)%Z. split; [lia | auto].
Qed.

Lemma retry_counter_bounded_witness :
  let timeout :=
    {| te_error := {| status := 408; message := "Request timeout";
                      code := Some "TIMEOUT" |};
       te_retryAttempt := None |} in
  fst (retrySeries 3 1000 0 [timeout; timeout]) = 2%Z /\
  (0 <= fst (retrySeries 3 1000 0 [timeout; timeout]) <= 3)%Z /\
  map fst (snd (retrySeries 3 1000 0 [timeout; timeout]))
  = [1000; 2000]%Z.
Proof.
  cbv zeta. split; [reflexivity |]. split; [| reflexivity].
  assert (H3 : (0 <= 3)%Z) by lia.
  assert (H0 : (0 <= 0 <= 3)%Z) by lia.
  exact (proj1 (retry_counter_bounded 3 1000 0
                  [ {| te_error := {| status := 408;
                                      message := "Request timeout";
                                      code := Some "TIMEOUT" |};
                       te_retryAttempt := None |};
                    {| te_error := {| status := 408;
                                      message := "Request timeout";
                                      code := Some "TIMEOUT" |};
                       te_retryAttempt := None |} ] H3 H0)).
Defined.

(** X25.  On a run of errors that are all retryable (408, 500, 502, 503,
    504) the counter cycles: [maxRetries] errors in a row are marked for a
    retry, the next one resets the counter, and so on; after [n] such
    errors, starting from a counter [c], the counter is
    [(c + n) mod (maxRetries + 1)]. *)
Theorem retry_counter_cycles (maxRetries retryDelay retryCount : Z)
    (errors : list TrackedError) :
  (0 <= maxRetries)%Z ->
  (0 <= retryCount <= maxRetries)%Z ->
  Forall (fun error => shouldRetry (status (te_error error)) = true) errors ->
  fst (retrySeries maxRetries retryDelay retryCount errors)
  = ((retryCount + Z.of_nat (length errors)) mod (maxRetries + 1))%Z.
Proof.
  intros Hmax Hc Hall. revert retryCount Hc.
  induction Hall as [| error rest Hretry _ IH]; intros retryCount Hc.
  - simpl. rewrite Z.add_0_r, Z.mod_small; lia.
  - cbn [retrySeries]. unfold retryInterceptor. rewrite Hretry.
    cbn [andb].
    destruct (Z.ltb_spec retryCount maxRetries).
    + specialize (IH (retryCount + 1)%Z ltac:(lia)).
      destruct (retrySeries maxRetries retryDelay (retryCount + 1) rest)
        as [final out].
      cbn [fst] in *. rewrite IH. f_equal. cbn [length]. lia.
    + specialize (IH 0%Z ltac:(lia)).
      destruct (retrySeries maxRetries retryDelay 0 rest) as [final out].
      cbn [fst] in *. rewrite IH.
      assert (retryCount = maxRetries) as -> by lia.
      replace (maxRetries + Z.of_nat (length (error :: rest)))%Z
        with (0 + Z.of_nat (length rest) + 1 * (maxRetries + 1))%Z
        by (cbn [length]; lia).
      rewrite Z.mod_add by lia. reflexivity.
Qed.

Lemma retry_counter_cycles_witness :
  let failing :=
    {| te_error := {| status := 503; message := "Service Unavailable";
                      code := None |};
       te_retryAttempt := None |} in
  fst (retrySeries 3 1000 0 [failing; failing; failing; failing; failing])
  = 1%Z.
Proof.
  cbv zeta.
  rewrite retry_counter_cycles; [reflexivity | lia | lia |].
  repeat constructor.
Defined.
